(** * pdf-tools: AcroForm extraction and filling

    A shallow embedding of [src/acroform/acroform_extractor.py] and
    [src/acroform/acroform_filler.py] (the extractor is duplicated verbatim
    in [src/auto_fill/acroform.py]).

    - Python [float] is IEEE 754 binary64: coordinates are primitive floats
      and every arithmetic operation and comparison of the source is the
      corresponding binary64 operation.
    - Python [int] is [Z]; [str] is [string]; a [set] of word identities is
      a [gset]; the field-to-value [dict] is a [gmap] keyed by strings.
    - A Python call either returns or raises, and may print, open, close or
      save along the way: computations live in [M], a writer of [event]s
      over [result].  Events emitted before an exception stay in the log,
      as the effects of a Python [try] body do.
    - PyMuPDF, pikepdf, [os] and [json] are outside the repository: what
      they answer for a given path is gathered in a [World] record. *)

From Stdlib Require Import ZArith List Ascii String Bool Lia.
From Stdlib Require Import Floats.PrimFloat Floats.SpecFloat Floats.FloatOps.
From Stdlib Require Import Floats.FloatAxioms Sorting.Sorted.
From stdpp Require Import gmap strings pretty.

Set Warnings "-register-all".
Local Open Scope Z_scope.

(** ** Python outcomes and effects *)

Module Py.

(** An exception object: [type(e).__name__] and [str(e)]. *)
Record exn : Type := Exn { exn_type : string; exn_msg : string }.

Inductive result (A : Type) : Type :=
| Ok (a : A)
| Raise (e : exn).
Arguments Ok {A} a.
Arguments Raise {A} e.

(** A PDF object as pikepdf hands it to Python.  Null, booleans, integers
    and reals arrive as native [None], [bool], [int] and
    [decimal.Decimal]; a real is kept as the three coercions the code can
    apply to it ([float], [int] and [str]), decimals themselves are not
    interpreted.  A dictionary lists its entries in the order in which
    [keys()] yields them. *)
Inductive pdfobj : Type :=
| PdfNull
| PdfBoolean (b : bool)
| PdfInteger (z : Z)
| PdfReal (as_float : float) (as_int : Z) (as_str : string)
| PdfString (s : string)
| PdfName (n : string)
| PdfArray (items : list pdfobj)
| PdfDictionary (entries : list (string * pdfobj)).

(** Which library owns a document handle. *)
Inductive library : Type := PyMuPDF | PikePDF.

#[global] Instance library_eq_dec : EqDecision library.
Proof. solve_decision. Defined.

(** Observable effects, in the order in which they happen.  [Saved] keeps
    the field objects as they stand when [pdf.save] is called. *)
Inductive event : Type :=
| Opened (lib : library) (path : string)
| Closed (lib : library) (path : string)
| Printed (line : string)
| MadeDirs (dir : string)
| Saved (path : string) (fields : list pdfobj).

(** A computation: its outcome and the events it emitted. *)
Definition M (A : Type) : Type := result A * list event.

Definition ret {A} (a : A) : M A := (Ok a, []).

Definition bind {A B} (m : M A) (k : A -> M B) : M B :=
  match m with
  | (Ok a, evs) => let '(r, evs') := k a in (r, evs ++ evs')
  | (Raise e, evs) => (Raise e, evs)
  end.

Definition emit (e : event) : M unit := (Ok tt, [e]).

Definition raise {A} (e : exn) : M A := (Raise e, []).

(** A library call whose outcome the world decides. *)
Definition lift {A} (r : result A) : M A := (r, []).

(** [try: body except Exception as e: handler e]. *)
Definition try_except {A} (body : M A) (handler : exn -> M A) : M A :=
  match body with
  | (Ok a, evs) => (Ok a, evs)
  | (Raise e, evs) => let '(r, evs') := handler e in (r, evs ++ evs')
  end.

Definition outcome {A} (m : M A) : result A := fst m.
Definition events {A} (m : M A) : list event := snd m.

(** The handles a log leaves open: an [Opened] adds its handle, a
    [Closed] removes one occurrence of it. *)
Fixpoint remove_first (h : library * string) (hs : list (library * string))
  : list (library * string) :=
  match hs with
  | [] => []
  | h' :: hs' => if decide (h = h') then hs' else h' :: remove_first h hs'
  end.

Definition handle_step (hs : list (library * string)) (e : event)
  : list (library * string) :=
  match e with
  | Opened lib p => hs ++ [(lib, p)]
  | Closed lib p => remove_first (lib, p) hs
  | _ => hs
  end.

Definition open_handles (log : list event) : list (library * string) :=
  foldl handle_step [] log.

(** An event other than the closing of a pikepdf handle. *)
Definition not_pike_close (e : event) : Prop :=
  match e with Closed PikePDF _ => False | _ => True end.

(** The lines written by [print], in order. *)
Definition printed_lines (log : list event) : list string :=
  omap (fun e => match e with Printed line => Some line | _ => None end) log.

(** A line written by [print]. *)
Definition is_print (e : event) : Prop :=
  match e with Printed _ => True | _ => False end.

(** Prints, directory creation and saving leave the handles as they are. *)
Definition quiet (e : event) : Prop :=
  match e with
  | Opened _ _ | Closed _ _ => False
  | _ => True
  end.

(** [sep.join(parts)]. *)
Definition join (sep : string) (parts : list string) : string :=
  String.concat sep parts.

(** [lst.sort(key=...)]: Python's sort is stable and compares keys with
    [<] only.  [lt a b] is [key(a) < key(b)].  On keys that [<] orders
    consistently every stable sort returns the same list; it is written
    here as a stable insertion sort. *)
Section Sort.
Context {A : Type} (lt : A -> A -> bool).

Fixpoint insert_sorted (x : A) (l : list A) : list A :=
  match l with
  | [] => [x]
  | y :: l' => if lt y x then y :: insert_sorted x l' else x :: y :: l'
  end.

Definition sort (l : list A) : list A := foldr insert_sorted [] l.

End Sort.

(** Python's two-argument [max] and [min] keep the first argument unless
    the second is strictly greater (smaller). *)
Definition max (a b : float) : float := if PrimFloat.ltb a b then b else a.
Definition min (a b : float) : float := if PrimFloat.ltb b a then b else a.

(** [(a1, a2) < (b1, b2)] on tuples of floats: the first position where
    the components differ under [==] decides. *)
Definition tuple_lt (a b : float * float) : bool :=
  if negb (PrimFloat.eqb (fst a) (fst b)) then PrimFloat.ltb (fst a) (fst b)
  else if negb (PrimFloat.eqb (snd a) (snd b)) then PrimFloat.ltb (snd a) (snd b)
  else false.

End Py.

#[global] Instance M_ret : MRet Py.M := @Py.ret.
#[global] Instance M_bind : MBind Py.M := fun A B k m => Py.bind m k.

(** ** PyMuPDF documents and the world outside the repository *)

(** One entry of [page.get_text("words")]:
    [(x0, y0, x1, y1, "word", block_no, line_no, word_no)], y measured
    from the top of the page. *)
Record Word : Type := mkWord {
  w_x0 : float; w_y0 : float; w_x1 : float; w_y1 : float;
  word_text : string;
  block_no : Z; line_no : Z; word_no : Z
}.

(** A page: [page.rect.height] and what [page.get_text("words")] does. *)
Record Page : Type := mkPage {
  rect_height : float;
  get_text_words : Py.result (list Word)
}.

(** A PyMuPDF document is the list of its pages. *)
Record Document : Type := mkDocument { doc_pages : list Page }.

(** What [json.load] may return at top level. *)
Inductive pyval : Type :=
| PyNone
| PyBool (b : bool)
| PyInt (z : Z)
| PyStr (s : string).

Inductive json_top : Type :=
| JsonObject (d : gmap string pyval)
| JsonOther.

(** A pikepdf document: [pdf.Root] is a dictionary. *)
Record Pdf : Type := mkPdf { Root : list (string * Py.pdfobj) }.

(** The answers of the libraries and of the file system during one run. *)
Record World : Type := mkWorld {
  fitz_open : string -> Py.result Document;
  pikepdf_open : string -> Py.result Pdf;
  pikepdf_save : string -> Py.result unit;
  composite_str : Py.pdfobj -> string;
  path_exists : string -> bool;
  path_dirname : string -> string;
  makedirs : string -> Py.result unit;
  json_load : string -> Py.result json_top
}.

(** ** pikepdf objects as the code uses them *)

Module Pike.
Import Py.

Definition TypeError (msg : string) : exn := Exn "TypeError" msg.
Definition ValueError (msg : string) : exn := Exn "ValueError" msg.
Definition AttributeError (msg : string) : exn := Exn "AttributeError" msg.

(** The first entry stored under a key. *)
Fixpoint assoc (key : string) (entries : list (string * pdfobj)) : option pdfobj :=
  match entries with
  | [] => None
  | (k, v) :: rest => if String.eqb k key then Some v else assoc key rest
  end.

(** [obj.get(key)]: a dictionary answers with its entry; another pikepdf
    object (a string, a name, an array) has no entry and answers with
    the default; [None] and the native numbers and booleans have no
    method [get]. *)
Definition get (o : pdfobj) (key : string) : result (option pdfobj) :=
  match o with
  | PdfDictionary entries => Ok (assoc key entries)
  | PdfString _ | PdfName _ | PdfArray _ => Ok None
  | PdfNull =>
      Raise (AttributeError "'NoneType' object has no attribute 'get'")
  | PdfBoolean _ =>
      Raise (AttributeError "'bool' object has no attribute 'get'")
  | PdfInteger _ =>
      Raise (AttributeError "'int' object has no attribute 'get'")
  | PdfReal _ _ _ =>
      Raise (AttributeError "'decimal.Decimal' object has no attribute 'get'")
  end.

(** [obj.get(key, default)]. *)
Definition get_or (o : pdfobj) (key : string) (default : pdfobj) : M pdfobj :=
  v ← lift (get o key);
  mret (match v with Some x => x | None => default end).

(** [str(obj)].  Strings and names give their text, [None] and the
    native numbers and booleans their Python rendering; what pikepdf
    prints for arrays and dictionaries is the world's. *)
Definition str (W : World) (o : pdfobj) : string :=
  match o with
  | PdfString s => s
  | PdfName n => n
  | PdfInteger z => pretty z
  | PdfBoolean b => if b then "True" else "False"
  | PdfReal _ _ s => s
  | PdfNull => "None"
  | PdfArray _ | PdfDictionary _ => composite_str W o
  end.

(** [float(n)] for a Python [int]: the nearest binary64 value, or
    [OverflowError] when there is none. *)
Definition float_of_int (z : Z) : result float :=
  let f := SF2Prim (binary_normalize prec emax z 0 false) in
  if is_infinity f then Raise (Exn "OverflowError" "int too large to convert to float")
  else Ok f.

(** [float(obj)]: numbers and booleans convert, anything else raises. *)
Definition to_float (o : pdfobj) : result float :=
  match o with
  | PdfInteger z => float_of_int z
  | PdfReal f _ _ => Ok f
  | PdfBoolean b => Ok (if b then 1%float else 0%float)
  | _ => Raise (TypeError "object is not a number")
  end.

(** [int(obj)]. *)
Definition to_int (o : pdfobj) : result Z :=
  match o with
  | PdfInteger z => Ok z
  | PdfReal _ i _ => Ok i
  | PdfBoolean b => Ok (if b then 1 else 0)
  | _ => Raise (TypeError "object is not a number")
  end.

(** [for x in obj]: an array yields its items, a dictionary its keys. *)
Definition iter (o : pdfobj) : result (list pdfobj) :=
  match o with
  | PdfArray items => Ok items
  | PdfDictionary entries => Ok (map (fun kv => PdfName (fst kv)) entries)
  | _ => Raise (TypeError "object is not iterable")
  end.

(** [[float(r) for r in obj]]. *)
Definition float_list (o : pdfobj) : M (list float) :=
  items ← lift (iter o);
  mapM (fun r => lift (to_float r)) items.

(** [field[key] = value]: replaces the entry, or adds it at the end. *)
Fixpoint set_entry (key : string) (value : pdfobj) (entries : list (string * pdfobj))
  : list (string * pdfobj) :=
  match entries with
  | [] => [(key, value)]
  | (k, v) :: rest =>
      if String.eqb k key then (k, value) :: rest
      else (k, v) :: set_entry key value rest
  end.

Definition setitem (o : pdfobj) (key : string) (value : pdfobj) : result pdfobj :=
  match o with
  | PdfDictionary entries => Ok (PdfDictionary (set_entry key value entries))
  | _ => Raise (TypeError "object is not a dictionary")
  end.

(** [pikepdf.Name(text)]: the text of a name begins with a slash and
    holds at least one more character; any other text is refused with
    [ValueError]. *)
Definition Name (text : string) : result pdfobj :=
  if Nat.ltb (String.length text) 2 then
    Raise (ValueError "Name must be at least one character long")
  else if String.prefix "/" text then Ok (PdfName text)
  else Raise (ValueError "Name objects must begin with '/'").

End Pike.

(** ** The extractor: [src/acroform/acroform_extractor.py] *)

Module Extractor.
Import Py.

(** [(block_no, line_no, word_no)], the identity of a word on its page. *)
Definition word_id : Type := Z * Z * Z.

Definition id_of (w : Word) : word_id := (block_no w, line_no w, word_no w).

Definition SEARCH_MARGIN_X_LEFT : float := 70.
Definition VERTICAL_ALIGNMENT_TOLERANCE : float := 10.
Definition SEARCH_MARGIN_Y_ABOVE : float := 30.
Definition HORIZONTAL_ALIGNMENT_TOLERANCE : float := 50.
(** [150*150], an [int] in the source; comparing a float with it is
    comparing with the float of the same value. *)
Definition MAX_RELEVANT_DISTANCE_SQ_OVERALL : float := 22500.

Definition INVALID_INPUT : string :=
  "Invalid page index or field coordinates for contextual analysis.".
Definition NO_CONTEXT : string :=
  "No distinct contextual text found nearby (or heuristics need tuning).".
Definition ERROR_PREFIX : string := "Error during contextual text extraction: ".

Definition out_of_bounds (page_index : Z) : string :=
  "Page index " +:+ pretty page_index +:+ " out of bounds for PyMuPDF.".

(** The change of vertical origin, [page.rect.height - y] (lines 104, 105,
    127 and 163): bottom-origin to top-origin and back. *)
Definition normalize (y H : float) : float := (H - y)%float.

(** The dictionaries appended to the three candidate lists. *)
Record LeftCandidate : Type := mkLeft {
  left_text : string; left_id : word_id; left_x1 : float; left_y0 : float
}.
Record AboveCandidate : Type := mkAbove {
  above_text : string; above_id : word_id; above_y1 : float; above_x0 : float
}.
Record ClosestCandidate : Type := mkClosest {
  closest_text : string; closest_id : word_id; closest_distance : float
}.

(** [claimed_word_ids.add(item['id'])] for each item in turn. *)
Definition claim (ids : list word_id) (claimed : gset word_id) : gset word_id :=
  foldl (fun s i => {[ i ]} ∪ s) claimed ids.

Definition is_claimed (claimed : gset word_id) (w : Word) : bool :=
  bool_decide (id_of w ∈ claimed).

Section Heuristics.
Variables (page_height f_x0 f_lly f_x1 f_ury : float).
Variable words_raw : list Word.

(** *** Text left of the field (lines 93-121) *)

Definition is_vertically_aligned (w : Word) : bool :=
  let field_top_y_pymu := normalize f_ury page_height in
  let field_bottom_y_pymu := normalize f_lly page_height in
  ((abs (w_y1 w - field_top_y_pymu) <? VERTICAL_ALIGNMENT_TOLERANCE)
   || (abs (w_y0 w - field_bottom_y_pymu) <? VERTICAL_ALIGNMENT_TOLERANCE)
   || ((w_y0 w <? field_bottom_y_pymu) && (field_top_y_pymu <? w_y1 w)))%float.

Definition in_left_window (w : Word) : bool :=
  ((w_x1 w <? f_x0) && ((f_x0 - w_x1 w) <? SEARCH_MARGIN_X_LEFT))%float
  && is_vertically_aligned w.

Definition left_texts_candidates : list LeftCandidate :=
  map (fun w => mkLeft (word_text w) (id_of w) (w_x1 w) (w_y0 w))
      (List.filter in_left_window words_raw).

Definition left_key (c : LeftCandidate) : float * float :=
  ((- left_x1 c)%float, left_y0 c).

Definition left_selected : list LeftCandidate :=
  take 3 (sort (fun a b => tuple_lt (left_key a) (left_key b))
               left_texts_candidates).

Definition actual_left_text_list : list string := map left_text left_selected.

Definition claimed_after_left : gset word_id :=
  claim (map left_id left_selected) ∅.

(** *** Text above the field (lines 125-146) *)

Definition in_above_window (w : Word) : bool :=
  let field_top_y_pymu := normalize f_ury page_height in
  ((w_y1 w <? field_top_y_pymu)
   && ((field_top_y_pymu - w_y1 w) <? SEARCH_MARGIN_Y_ABOVE)
   && (max f_x0 (w_x0 w)
       <? min f_x1 (w_x1 w) + HORIZONTAL_ALIGNMENT_TOLERANCE))%float.

Definition above_texts_candidates : list AboveCandidate :=
  map (fun w => mkAbove (word_text w) (id_of w) (w_y1 w) (w_x0 w))
      (List.filter
         (fun w => negb (is_claimed claimed_after_left w) && in_above_window w)
         words_raw).

Definition above_key (c : AboveCandidate) : float * float :=
  ((- above_y1 c)%float, above_x0 c).

Definition above_selected : list AboveCandidate :=
  take 3 (sort (fun a b => tuple_lt (above_key a) (above_key b))
               above_texts_candidates).

Definition actual_above_text_list : list string :=
  map above_text above_selected.

Definition claimed_after_above : gset word_id :=
  claim (map above_id above_selected) claimed_after_left.

(** *** Closest text overall (lines 150-182) *)

Definition distance_sq (w : Word) : float :=
  let field_center_x_pikepdf := ((f_x0 + f_x1) / 2)%float in
  let field_center_y_pikepdf := ((f_lly + f_ury) / 2)%float in
  let word_center_x_pymu := ((w_x0 w + w_x1 w) / 2)%float in
  let word_center_y_pymu := ((w_y0 w + w_y1 w) / 2)%float in
  let word_center_y_pikepdf := normalize word_center_y_pymu page_height in
  let dx := (word_center_x_pymu - field_center_x_pikepdf)%float in
  let dy := (word_center_y_pikepdf - field_center_y_pikepdf)%float in
  (dx * dx + dy * dy)%float.

Definition in_closest_window (w : Word) : bool :=
  (distance_sq w <? MAX_RELEVANT_DISTANCE_SQ_OVERALL)%float.

Definition closest_texts_candidates : list ClosestCandidate :=
  map (fun w => mkClosest (word_text w) (id_of w) (distance_sq w))
      (List.filter
         (fun w => negb (is_claimed claimed_after_above w) && in_closest_window w)
         words_raw).

Definition closest_selected : list ClosestCandidate :=
  take 3 (sort (fun a b => (closest_distance a <? closest_distance b)%float)
               closest_texts_candidates).

Definition actual_closest_text_list : list string :=
  map closest_text closest_selected.

End Heuristics.

(** *** Assembly (lines 185-199) *)

Definition segment (label : string) (texts : list string) : list string :=
  match texts with
  | [] => []
  | _ => [label +:+ join " " texts]
  end.

Definition contextual_texts_output (closest left above : list string)
  : list string :=
  segment "Closest: " closest ++ segment "Left: " left ++ segment "Above: " above.

Definition assemble (contextual_texts_output : list string) : string :=
  match contextual_texts_output with
  | [] => NO_CONTEXT
  | _ => join " | " contextual_texts_output
  end.

(** *** [get_contextual_text_for_field] (lines 54-202) *)

(** [page_index < 0 or not field_rect_coords or len(field_rect_coords) != 4];
    a missing rectangle is [None]. *)
Definition invalid_input (page_index : Z) (field_rect_coords : option (list float))
  : bool :=
  (page_index <? 0)
  || match field_rect_coords with
     | None => true
     | Some [] => true
     | Some coords => negb (Z.of_nat (length coords) =? 4)
     end.

(** [f_x0, f_lly, f_x1, f_ury = field_rect_coords]. *)
Definition unpack4 (field_rect_coords : option (list float))
  : M (float * float * float * float) :=
  match field_rect_coords with
  | Some [a; b; c; d] => mret (a, b, c, d)
  | Some _ => raise (Exn "ValueError" "wrong number of values to unpack")
  | None => raise (Exn "TypeError" "cannot unpack non-iterable NoneType object")
  end.

Definition open_document (W : World) (pdf_path : string) : M Document :=
  doc ← lift (fitz_open W pdf_path);
  emit (Opened PyMuPDF pdf_path);;
  mret doc.

(** [doc[page_index]] for a non-negative index. *)
Definition load_page (doc : Document) (page_index : Z) : M Page :=
  match doc_pages doc !! Z.to_nat page_index with
  | Some page => mret page
  | None => raise (Exn "IndexError" "page not in document")
  end.

(** The body of the [try] block. *)
Definition contextual_text_body (W : World) (pdf_path : string)
    (page_index : Z) (field_rect_coords : option (list float)) : M string :=
  doc ← open_document W pdf_path;
  if Z.of_nat (length (doc_pages doc)) <=? page_index then
    emit (Closed PyMuPDF pdf_path);;
    mret (out_of_bounds page_index)
  else
    page ← load_page doc page_index;
    '(f_x0, f_lly, f_x1, f_ury) ← unpack4 field_rect_coords;
    words_raw ← lift (get_text_words page);
    let H := rect_height page in
    let left := actual_left_text_list H f_x0 f_lly f_ury words_raw in
    let above := actual_above_text_list H f_x0 f_lly f_x1 f_ury words_raw in
    let closest := actual_closest_text_list H f_x0 f_lly f_x1 f_ury words_raw in
    let output := contextual_texts_output closest left above in
    emit (Closed PyMuPDF pdf_path);;
    mret (assemble output).

Definition get_contextual_text_for_field (W : World) (pdf_path : string)
    (page_index : Z) (field_rect_coords : option (list float)) : M string :=
  if invalid_input page_index field_rect_coords then mret INVALID_INPUT
  else
    try_except (contextual_text_body W pdf_path page_index field_rect_coords)
               (fun e => mret (ERROR_PREFIX +:+ exn_msg e)).

(** *** [get_field_options] (lines 27-52) *)

Definition option_label (W : World) (item : pdfobj) : list string :=
  match item with
  | PdfString _ => [Pike.str W item]
  | PdfArray [first; second] =>
      match second, first with
      | PdfString _, _ => [Pike.str W second]
      | _, PdfString _ => [Pike.str W first]
      | _, _ => ["[Non-string option: " +:+ Pike.str W first +:+ ", "
                 +:+ Pike.str W second +:+ "]"]
      end
  | PdfName _ => [Pike.str W item]
  | _ => []
  end.

Definition get_field_options (W : World) (field_obj : pdfobj) : M (list string) :=
  opt_array ← lift (Pike.get field_obj "/Opt");
  match opt_array with
  | Some (PdfArray items) => mret (concat (map (option_label W) items))
  | _ => mret []
  end.

(** *** [extract_form_fields] (lines 8-25) *)

Record FieldRecord : Type := mkFieldRecord {
  name : string;
  type : string;
  rect : list float;
  page : string;
  opts : list string;
  text : string
}.

(** The dictionary built for one field.  [field.get("/Rect", [])] and
    [field.get("/Page", 0)] are read twice by the source with the same
    answer; they are read once here. *)
Definition field_record (W : World) (pdf_path : string) (field : pdfobj)
  : M FieldRecord :=
  t ← Pike.get_or field "/T" (PdfString "");
  ft ← Pike.get_or field "/FT" (PdfString "");
  rect_obj ← Pike.get_or field "/Rect" (PdfArray []);
  rect ← Pike.float_list rect_obj;
  page_obj ← Pike.get_or field "/Page" (PdfInteger 0);
  opts ← get_field_options W field;
  page_index ← lift (Pike.to_int page_obj);
  text ← get_contextual_text_for_field W pdf_path page_index (Some rect);
  mret (mkFieldRecord (Pike.str W t) (Pike.str W ft) rect (Pike.str W page_obj)
                      opts text).

Definition extract_form_fields (W : World) (pdf_path : string)
  : M (list FieldRecord) :=
  pdf ← lift (pikepdf_open W pdf_path);
  emit (Opened PikePDF pdf_path);;
  match Pike.assoc "/AcroForm" (Root pdf) with
  | None => mret []
  | Some acro_form =>
      fields_obj ← Pike.get_or acro_form "/Fields" (PdfArray []);
      fields ← lift (Pike.iter fields_obj);
      mapM (field_record W pdf_path) fields
  end.

End Extractor.

(** ** The filler: [src/acroform/acroform_filler.py] *)

Module Filler.
Import Py.

(** The [field_mapping] argument: a dictionary, a path to a JSON file, or
    a value of another type.  Values are the strings and booleans of the
    mapping, with integers and [None]; JSON floats and containers as
    values are not covered. *)
Inductive mapping_arg : Type :=
| MappingDict (d : gmap string pyval)
| MappingPath (path : string)
| MappingOther.

(** [str(value)], also what [{value}] prints in an f-string. *)
Definition py_str (v : pyval) : string :=
  match v with
  | PyNone => "None"
  | PyBool b => if b then "True" else "False"
  | PyInt z => pretty z
  | PyStr s => s
  end.

Definition print (line : string) : M unit := emit (Printed line).

(** [ap_dict and "/N" in ap_dict]: an empty dictionary is falsy, a
    dictionary answers the membership test; another kind of object is
    taken to fail it with an exception. *)
Definition truthy_and_contains (o : pdfobj) (key : string) : result bool :=
  match o with
  | PdfDictionary [] => Ok false
  | PdfDictionary entries =>
      Ok (match Pike.assoc key entries with Some _ => true | None => false end)
  | _ => Raise (Pike.TypeError "object is not a dictionary")
  end.

(** [ap_dict["/N"]]. *)
Definition getitem (o : pdfobj) (key : string) : result pdfobj :=
  match o with
  | PdfDictionary entries =>
      match Pike.assoc key entries with
      | Some v => Ok v
      | None => Raise (Exn "KeyError" key)
      end
  | _ => Raise (Pike.TypeError "object is not a dictionary")
  end.

(** [hasattr(n_dict, 'keys')]: pikepdf objects have the method, [None]
    and the native numbers and booleans do not. *)
Definition has_keys (o : pdfobj) : bool :=
  match o with
  | PdfNull | PdfBoolean _ | PdfInteger _ | PdfReal _ _ _ => false
  | _ => true
  end.

(** [n_dict.keys()], in the order of iteration. *)
Definition keys (o : pdfobj) : result (list string) :=
  match o with
  | PdfDictionary entries => Ok (map fst entries)
  | _ => Raise (Pike.TypeError "object is not a dictionary")
  end.

(** [pikepdf.Name("Yes")] and [pikepdf.Name("Off")], as the source
    writes them: the text has no leading slash, so the constructor
    raises. *)
Definition Name_Yes : result pdfobj := Pike.Name "Yes".
Definition Name_Off : result pdfobj := Pike.Name "Off".

(** [field["/V"] = value; field["/AS"] = value] for a value at hand. *)
Definition set_state (field value : pdfobj) : M pdfobj :=
  field ← lift (Pike.setitem field "/V" value);
  lift (Pike.setitem field "/AS" value).

(** [field["/V"] = pikepdf.Name(..); field["/AS"] = pikepdf.Name(..)]:
    each right-hand side is evaluated before its assignment. *)
Definition set_named_state (field : pdfobj) (name : result pdfobj) : M pdfobj :=
  value ← lift name;
  field ← lift (Pike.setitem field "/V" value);
  value ← lift name;
  lift (Pike.setitem field "/AS" value).

(** The first key whose text is not ["/Off"] (lines 93-97). *)
Definition first_on_key (ks : list string) : option string :=
  List.find (fun key => negb (String.eqb key "/Off")) ks.

(** Lines 87-106: a checkbox set to its checked state.  A key is a Python
    [str]; stored in a dictionary it is a string object. *)
Definition check_box (field : pdfobj) : M pdfobj :=
  ap_dict ← Pike.get_or field "/AP" (PdfDictionary []);
  has_n ← lift (truthy_and_contains ap_dict "/N");
  if has_n : bool then
    n_dict ← lift (getitem ap_dict "/N");
    if has_keys n_dict then
      ks ← lift (keys n_dict);
      match first_on_key ks with
      | Some key => set_state field (PdfString key)
      | None => set_named_state field Name_Yes
      end
    else set_named_state field Name_Yes
  else set_named_state field Name_Yes.

(** The body of the inner [try] (lines 69-122): the field after the write. *)
Definition write_value (field : pdfobj) (field_name field_type : string)
    (field_value : pyval) : M pdfobj :=
  if String.eqb field_type "/Tx" then
    field ← lift (Pike.setitem field "/V" (PdfString (py_str field_value)));
    print ("Filled text field '" +:+ field_name +:+ "': " +:+ py_str field_value);;
    mret field
  else if String.eqb field_type "/Ch" then
    field ← lift (Pike.setitem field "/V" (PdfString (py_str field_value)));
    print ("Filled choice field '" +:+ field_name +:+ "': " +:+ py_str field_value);;
    mret field
  else if String.eqb field_type "/Btn" then
    field ← match field_value with
            | PyBool true => check_box field
            | PyBool false => set_named_state field Name_Off
            | _ => lift (Pike.setitem field "/V" (PdfString (py_str field_value)))
            end;
    print ("Filled button field '" +:+ field_name +:+ "': " +:+ py_str field_value);;
    mret field
  else
    field ← lift (Pike.setitem field "/V" (PdfString (py_str field_value)));
    print ("Filled field '" +:+ field_name +:+ "' (type " +:+ field_type +:+ "): "
           +:+ py_str field_value);;
    mret field.

(** One turn of the loop over the fields (lines 61-127): the field as the
    turn leaves it, and whether [filled_count] was incremented. *)
Definition fill_field (W : World) (field_mapping : gmap string pyval)
    (field : pdfobj) : M (pdfobj * bool) :=
  t ← Pike.get_or field "/T" (PdfString "");
  let field_name := Pike.str W t in
  match field_mapping !! field_name with
  | Some field_value =>
      ft ← Pike.get_or field "/FT" (PdfString "");
      let field_type := Pike.str W ft in
      try_except
        (field' ← write_value field field_name field_type field_value;
         mret (field', true))
        (fun e =>
           print ("Warning: Could not fill field '" +:+ field_name +:+ "': "
                  +:+ exn_msg e);;
           mret (field, false))
  | None =>
      print ("Info: No mapping found for field '" +:+ field_name +:+ "'");;
      mret (field, false)
  end.

(** The whole loop: the fields after it, [filled_count], [total_fields]. *)
Fixpoint fill_fields (W : World) (field_mapping : gmap string pyval)
    (fields : list pdfobj) (filled_count total_fields : Z)
  : M (list pdfobj * Z * Z) :=
  match fields with
  | [] => mret ([], filled_count, total_fields)
  | field :: rest =>
      '(field', filled) ← fill_field W field_mapping field;
      '(rest', filled_count', total_fields') ←
        fill_fields W field_mapping rest
                    (if filled : bool then filled_count + 1 else filled_count)
                    (total_fields + 1);
      mret (field' :: rest', filled_count', total_fields')
  end.

(** Lines 129-140: the output directory, the save, the close and the
    report; [fields] are the field objects after the loop. *)
Definition save_filled (W : World) (input_pdf_path output_pdf_path : string)
    (fields : list pdfobj) (filled_count total_fields : Z) : M bool :=
  let output_dir := path_dirname W output_pdf_path in
  (if negb (String.eqb output_dir "") && negb (path_exists W output_dir)
   then lift (makedirs W output_dir);; emit (MadeDirs output_dir)
   else mret tt);;
  lift (pikepdf_save W output_pdf_path);;
  emit (Saved output_pdf_path fields);;
  emit (Closed PikePDF input_pdf_path);;
  print ("Success: Filled " +:+ pretty filled_count +:+ " out of "
         +:+ pretty total_fields +:+ " fields.");;
  print ("Filled PDF saved to: " +:+ output_pdf_path);;
  mret true.

(** Lines 45-144: the outer [try] and its handler. *)
Definition fill_body (W : World) (input_pdf_path : string)
    (field_mapping : gmap string pyval) (output_pdf_path : string) : M bool :=
  pdf ← lift (pikepdf_open W input_pdf_path);
  emit (Opened PikePDF input_pdf_path);;
  match Pike.assoc "/AcroForm" (Root pdf) with
  | None =>
      print "Error: PDF does not contain form fields.";;
      emit (Closed PikePDF input_pdf_path);;
      mret false
  | Some acro_form =>
      fields_obj ← Pike.get_or acro_form "/Fields" (PdfArray []);
      fields ← lift (Pike.iter fields_obj);
      '(fields', filled_count, total_fields) ←
        fill_fields W field_mapping fields 0 0;
      save_filled W input_pdf_path output_pdf_path fields' filled_count total_fields
  end.

Definition fill_checked (W : World) (input_pdf_path : string)
    (field_mapping : json_top) (output_pdf_path : string) : M bool :=
  match field_mapping with
  | JsonOther =>
      print "Error: Field mapping must be a dictionary or path to JSON file.";;
      mret false
  | JsonObject d =>
      if negb (path_exists W input_pdf_path) then
        print ("Error: Input PDF file " +:+ input_pdf_path +:+ " not found.");;
        mret false
      else
        try_except (fill_body W input_pdf_path d output_pdf_path)
          (fun e =>
             print ("Error filling PDF: " +:+ exn_type e +:+ " - " +:+ exn_msg e);;
             mret false)
  end.

(** [fill_pdf_form] (lines 7-144). *)
Definition fill_pdf_form (W : World) (input_pdf_path : string)
    (field_mapping : mapping_arg) (output_pdf_path : string) : M bool :=
  match field_mapping with
  | MappingPath path =>
      if negb (path_exists W path) then
        print ("Error: Field mapping file " +:+ path +:+ " not found.");;
        mret false
      else
        match json_load W path with
        | Raise e =>
            print ("Error reading field mapping file: " +:+ exn_msg e);;
            mret false
        | Ok loaded => fill_checked W input_pdf_path loaded output_pdf_path
        end
  | MappingDict d => fill_checked W input_pdf_path (JsonObject d) output_pdf_path
  | MappingOther => fill_checked W input_pdf_path JsonOther output_pdf_path
  end.

End Filler.

(** ** The workflow: [auto_fill_pdf_workflow] (filler, lines 146-188) *)

Module Workflow.
Import Py.

Section Paths.
(** [Path(p).stem] and [os.path.join(a, b)], from the standard library. *)
Variable path_stem : string -> string.
Variable path_join : string -> string -> string.

(** [output_filename] is [None] by default; [not output_filename] also
    holds for the empty string. *)
Definition resolve_filename (input_pdf_path : string)
    (output_filename : option string) : string :=
  match output_filename with
  | None | Some "" => path_stem input_pdf_path +:+ "_filled.pdf"
  | Some given => given
  end.

Definition auto_fill_pdf_workflow (W : World) (input_pdf_path : string)
    (field_mapping_json_path : string) (output_dir : string)
    (output_filename : option string) : M string :=
  let output_filename := resolve_filename input_pdf_path output_filename in
  let output_pdf_path := path_join output_dir output_filename in
  Filler.print "Starting PDF auto-fill workflow...";;
  Filler.print ("Input PDF: " +:+ input_pdf_path);;
  Filler.print ("Field mapping: " +:+ field_mapping_json_path);;
  Filler.print ("Output PDF: " +:+ output_pdf_path);;
  success ← Filler.fill_pdf_form W input_pdf_path
              (Filler.MappingPath field_mapping_json_path) output_pdf_path;
  if success : bool then
    Filler.print "PDF auto-fill completed successfully!";;
    mret output_pdf_path
  else
    Filler.print "PDF auto-fill failed.";;
    mret "".

End Paths.

End Workflow.

(** ** The full text of a document: [_get_full_pdf_text_for_llm]
    ([src/acroform/add_understanding.py], lines 6-28; the same function is
    in [src/auto_fill/acroform.py], lines 204-226) *)

Module FullText.
Import Py.

(** What the function asks of an opened PyMuPDF document: [doc.is_pdf],
    for each page what [page.get_text("text")] does, and what [len(doc)]
    answers once the document has been closed. *)
Record TextDocument : Type := mkTextDocument {
  is_pdf : bool;
  page_texts : list (result string);
  len_after_close : result Z
}.

Definition PAGE_BREAK : string :=
  String (Ascii.ascii_of_nat 10)
         ("---- Page Break ----" +:+ String (Ascii.ascii_of_nat 10) "").

(** Lines 19-25, after [doc.close()]: with no page text collected the
    code asks the closed document for its length. *)
Definition report_empty (pdf_path : string) (doc : TextDocument) : M string :=
  n ← lift (len_after_close doc);
  if 0 <? n then
    Filler.print ("Warning: No text extracted from PDF '" +:+ pdf_path
                  +:+ "', though it has pages. LLM context will be limited.");;
    mret ""
  else if n =? 0 then
    Filler.print ("Warning: PDF '" +:+ pdf_path
                  +:+ "' has no pages. No text extracted.");;
    mret ""
  else mret (join PAGE_BREAK []).

Definition full_text_body (fitz_open_text : string -> result TextDocument)
    (pdf_path : string) : M string :=
  doc ← lift (fitz_open_text pdf_path);
  emit (Opened PyMuPDF pdf_path);;
  if negb (is_pdf doc) then
    Filler.print ("Warning: File '" +:+ pdf_path
                  +:+ "' may not be a valid PDF or is encrypted.");;
    emit (Closed PyMuPDF pdf_path);;
    mret ""
  else
    full_text_parts ← mapM (fun page_text => lift page_text) (page_texts doc);
    emit (Closed PyMuPDF pdf_path);;
    match full_text_parts with
    | [] => report_empty pdf_path doc
    | _ => mret (join PAGE_BREAK full_text_parts)
    end.

Definition _get_full_pdf_text_for_llm
    (fitz_open_text : string -> result TextDocument) (pdf_path : string)
  : M string :=
  try_except (full_text_body fitz_open_text pdf_path)
    (fun e =>
       Filler.print ("Error extracting full text from PDF '" +:+ pdf_path
                     +:+ "': " +:+ exn_msg e);;
       mret "").

End FullText.

(** ** The Gemini mapper: parts of [acroform_mapping_using_gemini]
    ([src/acroform/llm.py]) that compute on the field records and on the
    response text *)

Module Gemini.
Import Py.

(** [', '.join(map(str, field_options))] for options that are strings. *)
Definition options_text (field_options : list string) : string :=
  join ", " field_options.

(** Lines 61-70: the detail line of one field record.  The record comes
    from [extract_form_fields], so the keys [type], [text] and [opts] are
    present and the defaults of [field.get] do not apply. *)
Definition detail (field : Extractor.FieldRecord) : string :=
  let field_name := Extractor.name field in
  let field_type := Extractor.type field in
  let field_text := Extractor.text field in
  let field_options := Extractor.opts field in
  let detail := "- " +:+ field_name +:+ " (Type: " +:+ field_type +:+ ")" in
  let detail :=
    if negb (String.eqb field_text "")
       && negb (String.eqb field_text "No contextual text")
    then detail +:+ " - Context: " +:+ field_text
    else detail in
  match field_options with
  | [] => detail
  | _ => detail +:+ " - Options: " +:+ options_text field_options
  end.

(** Lines 53-72: the loop over the records; a record without a name is
    skipped.  The result is [(field_names, field_details)]. *)
Definition field_details (form_fields : list Extractor.FieldRecord)
  : list string * list string :=
  let named :=
    List.filter (fun field => negb (String.eqb (Extractor.name field) ""))
                form_fields in
  (map Extractor.name named, map detail named).

(** [s.find(c)] and [s.rfind(c)] for a character: the index of the first
    (last) occurrence, or -1. *)
Fixpoint find (c : Ascii.ascii) (s : string) : Z :=
  match s with
  | EmptyString => -1
  | String a rest =>
      if Ascii.eqb a c then 0
      else let i := find c rest in if i =? -1 then -1 else i + 1
  end.

Fixpoint rfind (c : Ascii.ascii) (s : string) : Z :=
  match s with
  | EmptyString => -1
  | String a rest =>
      let i := rfind c rest in
      if i =? -1 then (if Ascii.eqb a c then 0 else -1) else i + 1
  end.

(** [s[start:stop]] for indices that are not negative.  Indices count
    the bytes of the UTF-8 text where Python counts code points; between
    a first ["{"] and a last ["}"], which are single bytes that occur in
    no longer sequence, both cut out the same text. *)
Definition slice (s : string) (start stop : Z) : string :=
  String.substring (Z.to_nat start) (Z.to_nat (stop - start)) s.

(** Lines 130-137: the text handed to [json.loads]. *)
Definition json_candidate (response_text : string) : string :=
  let start_idx := find "{"%char response_text in
  let end_idx := rfind "}"%char response_text + 1 in
  if negb (start_idx =? -1) && negb (end_idx =? 0)
  then slice response_text start_idx end_idx
  else response_text.

(** The character does not occur in the string. *)
Fixpoint absent (c : Ascii.ascii) (s : string) : bool :=
  match s with
  | EmptyString => true
  | String a rest => negb (Ascii.eqb a c) && absent c rest
  end.

End Gemini.

(** ** Statements in the words of the specification *)

Module Spec.
Import Py.

(** A labelled segment is present only for a non-empty word list. *)
Definition labelled (label : string) (words : list string) : option string :=
  if decide (words = []) then None else Some (label +:+ join " " words).

(** Assembly as the specification words it: the segments that are
    present, Closest then Left then Above, joined with [" | "]; the
    sentinel when none is. *)
Definition spec_context (closest left above : list string) : string :=
  let present :=
    omap id [labelled "Closest: " closest; labelled "Left: " left;
             labelled "Above: " above] in
  if decide (present = []) then Extractor.NO_CONTEXT else join " | " present.

(** The float of a whole number. *)
Definition whole (z : Z) : float := SF2Prim (binary_normalize prec emax z 0 false).

(** The whole numbers [0 .. n] as floats. *)
Definition whole_upto (n : nat) : list float :=
  map (fun k => whole (Z.of_nat k)) (seq 0 (S n)).

(** The round trip through the normalizer gives [y] back, under [==]. *)
Definition round_trips (H y : float) : bool :=
  PrimFloat.eqb (Extractor.normalize (Extractor.normalize y H) H) y.

(** Every pair of whole coordinates in [0 .. n] round-trips. *)
Definition all_round_trip (n : nat) : bool :=
  let coordinates := whole_upto n in
  forallb (fun H => forallb (round_trips H) coordinates) coordinates.

(** The value of a finite binary64 number, [m * 2 ^ e] with a signed
    mantissa, as the pair [(m, e)]; infinities and NaN have none. *)
Definition dyadic (x : spec_float) : option (Z * Z) :=
  match x with
  | S754_zero _ => Some (0, 0)
  | S754_finite s m e => Some (cond_Zopp s (Zpos m), e)
  | _ => None
  end.

(** A value in units of [2 ^ E], for [E] not above its exponent. *)
Definition scaled (E : Z) (v : Z * Z) : Z := fst v * 2 ^ (snd v - E).

(** Two pairs stand for the same number. *)
Definition same_value (a b : Z * Z) : bool :=
  let E := Z.min (snd a) (snd b) in scaled E a =? scaled E b.

(** The difference of two values, as a number and not as a float. *)
Definition difference (a b : Z * Z) : Z * Z :=
  let E := Z.min (snd a) (snd b) in (scaled E a - scaled E b, E).

(** [H - y] is computed without rounding: [H], [y] and the float [H - y]
    are finite and the float is the difference of the two numbers. *)
Definition exact_difference (H y : float) : bool :=
  match dyadic (Prim2SF H), dyadic (Prim2SF y), dyadic (Prim2SF (H - y)) with
  | Some h, Some v, Some d => same_value d (difference h v)
  | _, _, _ => false
  end.

(** A pikepdf object, which answers [get]: a string, a name, an array or
    a dictionary.  [None] and the native numbers and booleans do not. *)
Definition answers_get (o : pdfobj) : bool :=
  match o with
  | PdfString _ | PdfName _ | PdfArray _ | PdfDictionary _ => true
  | _ => false
  end.

(** The entry of an object under a key; only a dictionary has entries. *)
Definition entry (o : pdfobj) (key : string) : option pdfobj :=
  match o with
  | PdfDictionary entries => Pike.assoc key entries
  | _ => None
  end.

(** The name under which the filler and the extractor know a field. *)
Definition field_name (W : World) (field : pdfobj) : string :=
  match field with
  | PdfDictionary entries =>
      Pike.str W (default (PdfString "") (Pike.assoc "/T" entries))
  | _ => ""
  end.

Definition field_type (W : World) (field : pdfobj) : string :=
  match field with
  | PdfDictionary entries =>
      Pike.str W (default (PdfString "") (Pike.assoc "/FT" entries))
  | _ => ""
  end.

(** The items of a field's rectangle: those of its [/Rect] array, none
    when the field has no [/Rect]. *)
Definition rect_items (field : pdfobj) : list pdfobj :=
  match entry field "/Rect" with
  | Some (PdfArray items) => items
  | _ => []
  end.

(** The page entry of a field, [0] when it has none. *)
Definition page_entry (field : pdfobj) : pdfobj :=
  default (PdfInteger 0) (entry field "/Page").

(** What the catalog records for one field: its name and type; its
    rectangle, each item of [/Rect] coerced to a float, in order; the
    string of its page entry; its decoded options; and as text the
    string the context engine returns for the integer of the page entry
    and that rectangle, which is the invalid-input sentinel when the
    rectangle does not have exactly 4 coordinates or the page is
    negative. *)
Definition recorded (W : World) (path : string) (field : pdfobj)
    (r : Extractor.FieldRecord) : Prop :=
  Extractor.name r = field_name W field
  /\ Extractor.type r = field_type W field
  /\ Forall2 (fun item coordinate => Pike.to_float item = Ok coordinate)
             (rect_items field) (Extractor.rect r)
  /\ Extractor.page r = Pike.str W (page_entry field)
  /\ outcome (Extractor.get_field_options W field) = Ok (Extractor.opts r)
  /\ exists page_index,
       Pike.to_int (page_entry field) = Ok page_index
       /\ outcome (Extractor.get_contextual_text_for_field
                     W path page_index (Some (Extractor.rect r)))
          = Ok (Extractor.text r)
       /\ (length (Extractor.rect r) <> 4%nat \/ page_index < 0 ->
           Extractor.text r = Extractor.INVALID_INPUT).

(** The field collection of a document, when it has one the code can walk:
    [/AcroForm] is a dictionary and its [/Fields], an empty list when
    absent, can be iterated. *)
Definition form_fields (pdf : Pdf) : option (list pdfobj) :=
  match Pike.assoc "/AcroForm" (Root pdf) with
  | Some (PdfDictionary acro) =>
      match Pike.iter (default (PdfArray []) (Pike.assoc "/Fields" acro)) with
      | Ok fields => Some fields
      | Raise _ => None
      end
  | _ => None
  end.

Definition is_number (o : pdfobj) : bool :=
  match Pike.to_float o with Ok _ => true | Raise _ => false end.

(** A field the catalog builder can coerce: a pikepdf object whose
    [/Rect], if present, is an array of numbers (of any length) and whose
    [/Page], if present, is a number.  An object that is not a dictionary
    has neither entry. *)
Definition coercible_field (field : pdfobj) : bool :=
  answers_get field
  && match entry field "/Rect" with
     | None => true
     | Some (PdfArray items) => forallb is_number items
     | Some _ => false
     end
  && match entry field "/Page" with
     | None => true
     | Some o => match Pike.to_int o with Ok _ => true | Raise _ => false end
     end.

(** [field["/V"] = v; field["/AS"] = v] on the entries of a field. *)
Definition with_state (v : pdfobj) (entries : list (string * pdfobj)) : pdfobj :=
  PdfDictionary (Pike.set_entry "/AS" v (Pike.set_entry "/V" v entries)).

(** The dictionary that reaches the [try] block of [fill_pdf_form], when
    the call gets that far. *)
Definition loaded_mapping (W : World) (input_pdf_path : string)
    (field_mapping : Filler.mapping_arg) : option (gmap string pyval) :=
  let checked (loaded : json_top) :=
    match loaded with
    | JsonObject d => if path_exists W input_pdf_path then Some d else None
    | JsonOther => None
    end in
  match field_mapping with
  | Filler.MappingDict d => checked (JsonObject d)
  | Filler.MappingPath path =>
      if path_exists W path then
        match json_load W path with
        | Ok loaded => checked loaded
        | Raise _ => None
        end
      else None
  | Filler.MappingOther => None
  end.

(** A printed line mentions a key. *)
Definition mentions (key : string) (e : event) : bool :=
  match e with
  | Printed line => match String.index 0 key line with Some _ => true | None => false end
  | _ => false
  end.

End Spec.

(** ** Sample documents *)

Module Samples.
Import Py.

(** A world in which every path opens the given documents, every file
    exists, and saving succeeds. *)
Definition world (doc : Document) (pdf : Pdf) : World :=
  mkWorld (fun _ => Ok doc) (fun _ => Ok pdf) (fun _ => Ok tt)
          (fun _ => "<object>") (fun _ => true) (fun _ => "")
          (fun _ => Ok tt) (fun _ => Ok JsonOther).

(** The same, except that [pdf.save] fails. *)
Definition read_only_world (doc : Document) (pdf : Pdf) : World :=
  mkWorld (fun _ => Ok doc) (fun _ => Ok pdf)
          (fun _ => Raise (Exn "PermissionError" "cannot write the output file"))
          (fun _ => "<object>") (fun _ => true) (fun _ => "")
          (fun _ => Ok tt) (fun _ => Ok JsonOther).

(** The end-to-end scenario: one page of height 792 with the single word
    ["Name:"] at [(30, 75, 65, 85)]. *)
Definition name_word (b l n : Z) : Word := mkWord 30 75 65 85 "Name:" b l n.
Definition name_page (b l n : Z) : Page := mkPage 792 (Ok [name_word b l n]).
Definition name_doc : Document := mkDocument [name_page 0 0 0].
Definition name_rect : list float := [100; 700; 200; 715]%float.

(** A page with words on every side of the field rectangle. *)
Definition crowded_doc : Document :=
  mkDocument
    [mkPage 792
       (Ok [mkWord 30 75 65 85 "Name:" 0 0 0;
            mkWord 10 75 28 85 "Full" 0 0 1;
            mkWord 100 50 150 60 "Section" 1 0 0;
            mkWord 100 62 130 72 "A" 1 1 0;
            mkWord 210 75 260 85 "right" 2 0 0;
            mkWord 40 60 90 70 "up-left" 3 0 0])].

(** A page whose text extraction fails. *)
Definition broken_doc : Document :=
  mkDocument [mkPage 792 (Raise (Exn "RuntimeError" "cannot read page content"))].

Definition form (fields : list pdfobj) : Pdf :=
  mkPdf [("/AcroForm", PdfDictionary [("/Fields", PdfArray fields)])].

(** A document without [/AcroForm]. *)
Definition plain_pdf : Pdf := mkPdf [("/Type", PdfName "/Catalog")].

Definition text_field : pdfobj :=
  PdfDictionary
    [("/T", PdfString "Name"); ("/FT", PdfName "/Tx");
     ("/Rect", PdfArray [PdfInteger 100; PdfInteger 700; PdfInteger 200;
                         PdfInteger 715])].

(** A checkbox whose appearance states are [/Off] and [/On]; the
    appearance streams are shown as empty dictionaries. *)
Definition check_entries : list (string * pdfobj) :=
  [("/T", PdfString "Agree"); ("/FT", PdfName "/Btn");
   ("/AP", PdfDictionary
             [("/N", PdfDictionary [("/Off", PdfDictionary []);
                                    ("/On", PdfDictionary [])])])].
Definition check_field : pdfobj := PdfDictionary check_entries.

(** A checkbox without an appearance dictionary. *)
Definition plain_check_field : pdfobj :=
  PdfDictionary [("/T", PdfString "Agree"); ("/FT", PdfName "/Btn")].

(** A field whose rectangle holds a name instead of numbers. *)
Definition bad_rect_field : pdfobj :=
  PdfDictionary
    [("/T", PdfString "Broken"); ("/FT", PdfName "/Tx");
     ("/Rect", PdfArray [PdfName "/A"; PdfName "/B"; PdfName "/C"; PdfName "/D"])].

(** A field with a rectangle of three coordinates. *)
Definition short_rect_field : pdfobj :=
  PdfDictionary
    [("/T", PdfString "Short"); ("/FT", PdfName "/Tx");
     ("/Rect", PdfArray [PdfInteger 100; PdfInteger 700; PdfInteger 200])].

Definition ghost_mapping : gmap string pyval :=
  <["Ghost" := PyStr "x"]> (<["Agree" := PyBool true]> ∅).

(** Five words below the field rectangle, at growing distance from it,
    listed out of order. *)
Definition stacked_words : list Word :=
  [mkWord 110 160 140 170 "four" 0 3 0;
   mkWord 110 100 140 110 "one" 0 0 0;
   mkWord 110 180 140 190 "five" 0 4 0;
   mkWord 110 140 140 150 "three" 0 2 0;
   mkWord 110 120 140 130 "two" 0 1 0].

(** Four words on the line of the field rectangle, left of it. *)
Definition line_words : list Word :=
  [mkWord 35 78 45 90 "a" 0 0 0;
   mkWord 80 78 90 90 "d" 0 0 3;
   mkWord 50 78 60 90 "b" 0 0 1;
   mkWord 65 78 75 90 "c" 0 0 2].

End Samples.

(** ** Ranking *)

Module Ranking.

(** [a] may stand right before [b] in a list sorted with [lt]: [b] does
    not sort strictly before [a]. *)
Definition precedes {A : Type} (lt : A -> A -> bool) (a b : A) : Prop :=
  lt b a = false.

Section Qualifying.
Import Extractor.
Variables (H f_x0 f_lly f_x1 f_ury : float) (words : list Word).

(** The words that pass each heuristic's test, in page order; for Above
    and Closest, among the words whose identity is not yet claimed. *)
Definition left_qualifying : list Word :=
  List.filter (in_left_window H f_x0 f_lly f_ury) words.

Definition above_qualifying : list Word :=
  List.filter
    (fun w => negb (is_claimed (claimed_after_left H f_x0 f_lly f_ury words) w)
              && in_above_window H f_x0 f_x1 f_ury w) words.

Definition closest_qualifying : list Word :=
  List.filter
    (fun w => negb (is_claimed (claimed_after_above H f_x0 f_lly f_x1 f_ury words) w)
              && in_closest_window H f_x0 f_lly f_x1 f_ury w) words.

End Qualifying.

(** [x == x] in Python: [x] is a number, not NaN. *)
Definition number (x : float) : bool := PrimFloat.eqb x x.

(** [a] may stand anywhere before [b] in a list sorted with [lt]: both
    are comparable ([ok]) and [b] does not sort strictly before [a]. *)
Definition not_after {A : Type} (ok : A -> Prop) (lt : A -> A -> bool) (a b : A)
  : Prop :=
  ok a /\ ok b /\ lt b a = false.

End Ranking.

(** ** Choice options as pikepdf stores them *)

Module Options.
Import Py.

(** An entry of [/Opt]: a display string alone, or the pair
    [[export, display]] of two strings. *)
Definition encode_option (choice : option string * string) : pdfobj :=
  match choice with
  | (None, display) => PdfString display
  | (Some export, display) => PdfArray [PdfString export; PdfString display]
  end.

(** A field dictionary with the given [/Opt] array after other entries. *)
Definition with_options (entries : list (string * pdfobj)) (items : list pdfobj)
  : pdfobj :=
  PdfDictionary (Pike.set_entry "/Opt" (PdfArray items) entries).

End Options.

(** ** What a fill may change *)

Module Writer.
Import Py.

(** [field'] is [field] except possibly for its [/V] and [/AS] entries;
    both are dictionaries. *)
Definition only_value_changed (field field' : pdfobj) : Prop :=
  exists entries entries',
    field = PdfDictionary entries /\ field' = PdfDictionary entries'
    /\ forall key, key <> "/V" -> key <> "/AS" ->
                   Pike.assoc key entries' = Pike.assoc key entries.

Definition is_dictionary (o : pdfobj) : Prop :=
  exists entries, o = PdfDictionary entries.

(** An event other than a save. *)
Definition not_saved (e : event) : Prop :=
  match e with Saved _ _ => False | _ => True end.

(** The handler of the outer [try] of [fill_pdf_form] (lines 142-144). *)
Definition report_failure (e : exn) : M bool :=
  Filler.print ("Error filling PDF: " +:+ exn_type e +:+ " - " +:+ exn_msg e);;
  mret false.

End Writer.

(** ** Reasoning about computations *)

Section MonadFacts.
Import Py.
Context {A B : Type}.

Lemma bind_ok (m : M A) (k : A -> M B) a evs :
  m = (Ok a, evs) -> m ≫= k = (fst (k a), evs ++ snd (k a)).
Proof. intros ->. unfold mbind, M_bind, bind. now destruct (k a). Qed.

Lemma bind_raise (m : M A) (k : A -> M B) e evs :
  m = (Raise e, evs) -> m ≫= k = (Raise e, evs).
Proof. now intros ->. Qed.

Lemma bind_lift_ok (r : result A) (k : A -> M B) a :
  r = Ok a -> lift r ≫= k = k a.
Proof. intros ->. unfold mbind, M_bind, bind, lift. now destruct (k a). Qed.

Lemma bind_lift_raise (r : result A) (k : A -> M B) e :
  r = Raise e -> lift r ≫= k = (Raise e, []).
Proof. now intros ->. Qed.

Lemma bind_ext (m : M A) (k k' : A -> M B) :
  (forall a, k a = k' a) -> m ≫= k = m ≫= k'.
Proof.
  intros Hk. destruct m as [[a|e] evs]; [|reflexivity].
  unfold mbind, M_bind, bind. now rewrite Hk.
Qed.

Lemma bind_ret (a : A) (k : A -> M B) : mret a ≫= k = k a.
Proof. unfold mret, M_ret, ret, mbind, M_bind, bind. now destruct (k a). Qed.

End MonadFacts.

Section ListFacts.
Context {A : Type}.

Lemma in_insert_sorted (lt : A -> A -> bool) x y l :
  In y (Py.insert_sorted lt x l) <-> y = x \/ In y l.
Proof.
  induction l as [|z l IH]; simpl.
  - intuition.
  - destruct (lt z x); simpl; rewrite ?IH; intuition.
Qed.

Lemma in_sort (lt : A -> A -> bool) y l : In y (Py.sort lt l) <-> In y l.
Proof.
  unfold Py.sort. induction l as [|x l IH]; simpl; [tauto|].
  rewrite in_insert_sorted, IH. intuition.
Qed.

Lemma in_take n (y : A) l : In y (take n l) -> In y l.
Proof.
  revert l. induction n as [|n IH]; intros [|x l]; simpl; try tauto.
  intros [->|Hin]; auto.
Qed.

End ListFacts.

(** ** Subtraction without rounding *)

Module ExactFacts.
Import Spec.

Lemma scaled_rescale E' E m e :
  E' <= E -> E <= e -> scaled E' (m, e) = scaled E (m, e) * 2 ^ (E - E').
Proof.
  intros H1 H2. unfold scaled. simpl.
  rewrite <- Z.mul_assoc, <- Z.pow_add_r by lia. do 2 f_equal. lia.
Qed.

Lemma same_value_at E x y :
  E <= snd x -> E <= snd y ->
  same_value x y = true <-> scaled E x = scaled E y.
Proof.
  intros Hx Hy. unfold same_value. cbv zeta. rewrite Z.eqb_eq.
  destruct x as [mx ex], y as [my ey]. simpl in *.
  rewrite (scaled_rescale E (Z.min ex ey) mx ex) by lia.
  rewrite (scaled_rescale E (Z.min ex ey) my ey) by lia.
  split; [now intros ->|].
  apply Z.mul_reg_r. apply Z.pow_nonzero; lia.
Qed.

Lemma scaled_difference E a b :
  E <= snd a -> E <= snd b ->
  scaled E (difference a b) = scaled E a - scaled E b.
Proof.
  intros Ha Hb. destruct a as [ma ea], b as [mb eb]. simpl in *.
  unfold difference. cbv zeta. simpl fst. simpl snd.
  rewrite (scaled_rescale E (Z.min ea eb) ma ea) by lia.
  rewrite (scaled_rescale E (Z.min ea eb) mb eb) by lia.
  unfold scaled at 1. simpl fst. simpl snd. ring.
Qed.

Lemma same_value_moved a b c :
  same_value c (difference a b) = true -> same_value (difference a c) b = true.
Proof.
  set (E := Z.min (snd a) (Z.min (snd b) (snd c))).
  assert (snd (difference a b) = Z.min (snd a) (snd b)) as Hab by reflexivity.
  assert (snd (difference a c) = Z.min (snd a) (snd c)) as Hac by reflexivity.
  rewrite (same_value_at E), (same_value_at E) by (rewrite ?Hab, ?Hac; lia).
  rewrite !scaled_difference by lia. lia.
Qed.

Section Rounding.
Variables prec0 emax0 : Z.

Lemma digits2_shift m d :
  digits2_pos (Pos.iter xO m d) = (digits2_pos m + d)%positive.
Proof.
  induction d as [|d IH] using Pos.peano_ind.
  - simpl. now rewrite Pos.add_1_r.
  - rewrite Pos.iter_succ. simpl. rewrite IH. now rewrite Pos.add_succ_r.
Qed.

Lemma Zpos_shift m d : Zpos (Pos.iter xO m d) = Zpos m * 2 ^ Zpos d.
Proof.
  induction d as [|d IH] using Pos.peano_ind.
  - simpl. lia.
  - rewrite Pos.iter_succ, Pos2Z.inj_xO, IH, Pos2Z.inj_succ, Z.pow_succ_r by lia.
    ring.
Qed.

Lemma shr_shift d : forall m,
  SpecFloat.iter_pos shr_1 d (Build_shr_record (Zpos (Pos.iter xO m d)) false false)
  = Build_shr_record (Zpos m) false false.
Proof.
  induction d as [d IH|d IH|]; intros m; simpl.
  - now rewrite IH, IH.
  - now rewrite IH, IH.
  - reflexivity.
Qed.

Lemma shl_align_value mx ex ez :
  ez <= ex -> Zpos (fst (shl_align mx ex ez)) = Zpos mx * 2 ^ (ex - ez).
Proof.
  intros Hle. unfold shl_align.
  destruct (ez - ex) as [|d|d] eqn:Hd; simpl fst.
  - replace (ex - ez) with 0 by lia. simpl. lia.
  - lia.
  - replace (ex - ez) with (Zpos d) by lia. apply Zpos_shift.
Qed.

Lemma round_aux_canonical s m e :
  bounded prec0 emax0 m e = true ->
  binary_round_aux prec0 emax0 s (Zpos m) e loc_Exact = S754_finite s m e.
Proof.
  unfold bounded, canonical_mantissa. intros Hb.
  apply andb_prop in Hb as [Hc He]. apply Z.eqb_eq in Hc.
  unfold binary_round_aux, shr_fexp. simpl Zdigits2. rewrite Hc, Z.sub_diag.
  unfold shr at 1.
  cbn [shr_record_of_loc loc_of_shr_record round_nearest_even shr_m Zdigits2].
  rewrite Hc, Z.sub_diag. unfold shr. cbn [shr_m]. now rewrite He.
Qed.

Lemma round_aux_shifted s m e d :
  bounded prec0 emax0 m e = true ->
  binary_round_aux prec0 emax0 s (Zpos (Pos.iter xO m d)) (e - Zpos d) loc_Exact
  = S754_finite s m e.
Proof.
  unfold bounded, canonical_mantissa. intros Hb.
  apply andb_prop in Hb as [Hc He]. apply Z.eqb_eq in Hc.
  unfold binary_round_aux. unfold shr_fexp at 1. cbn [Zdigits2].
  rewrite digits2_shift, Pos2Z.inj_add.
  replace (Zpos (digits2_pos m) + Zpos d + (e - Zpos d))
    with (Zpos (digits2_pos m) + e) by lia.
  rewrite Hc. replace (e - (e - Zpos d)) with (Zpos d) by lia.
  unfold shr at 1. cbn [shr_record_of_loc]. rewrite shr_shift.
  replace (e - Zpos d + Zpos d) with e by lia.
  unfold shr_fexp.
  cbn [shr_record_of_loc loc_of_shr_record round_nearest_even shr_m Zdigits2].
  rewrite Hc, Z.sub_diag. unfold shr. cbn [shr_m]. now rewrite He.
Qed.

Lemma round_canonical s m e :
  bounded prec0 emax0 m e = true ->
  binary_round prec0 emax0 s m e = S754_finite s m e.
Proof.
  intros Hb. pose proof Hb as Hb'. unfold bounded, canonical_mantissa in Hb'.
  apply andb_prop in Hb' as [Hc He]. apply Z.eqb_eq in Hc.
  unfold binary_round. rewrite Hc. unfold shl_align. rewrite Z.sub_diag.
  now apply round_aux_canonical.
Qed.

Lemma round_finer s m e d :
  bounded prec0 emax0 m e = true ->
  binary_round prec0 emax0 s (Pos.iter xO m d) (e - Zpos d) = S754_finite s m e.
Proof.
  intros Hb. pose proof Hb as Hb'. unfold bounded, canonical_mantissa in Hb'.
  apply andb_prop in Hb' as [Hc He]. apply Z.eqb_eq in Hc.
  unfold binary_round. rewrite digits2_shift, Pos2Z.inj_add.
  replace (Zpos (digits2_pos m) + Zpos d + (e - Zpos d))
    with (Zpos (digits2_pos m) + e) by lia.
  rewrite Hc. unfold shl_align.
  replace (e - (e - Zpos d)) with (Zpos d) by lia.
  now apply round_aux_shifted.
Qed.

Lemma round_coarser s p e d :
  bounded prec0 emax0 (Pos.iter xO p d) e = true ->
  binary_round prec0 emax0 s p (e + Zpos d) = S754_finite s (Pos.iter xO p d) e.
Proof.
  intros Hb. pose proof Hb as Hb'. unfold bounded, canonical_mantissa in Hb'.
  apply andb_prop in Hb' as [Hc He]. apply Z.eqb_eq in Hc.
  rewrite digits2_shift, Pos2Z.inj_add in Hc.
  unfold binary_round.
  replace (Zpos (digits2_pos p) + (e + Zpos d))
    with (Zpos (digits2_pos p) + Zpos d + e) by lia.
  rewrite Hc. unfold shl_align.
  replace (e - (e + Zpos d)) with (Zneg d) by lia.
  now apply round_aux_canonical.
Qed.

(** Rounding a value that a canonical number has gives that number. *)
Lemma normalize_exact M ez s m e szero :
  bounded prec0 emax0 m e = true ->
  same_value (M, ez) (cond_Zopp s (Zpos m), e) = true ->
  binary_normalize prec0 emax0 M ez szero = S754_finite s m e.
Proof.
  intros Hb Hsame.
  assert (exists p, M = cond_Zopp s (Zpos p)
                    /\ Zpos p * 2 ^ (ez - Z.min ez e) = Zpos m * 2 ^ (e - Z.min ez e))
    as (p & -> & Hp).
  { unfold same_value, scaled in Hsame. cbn [fst snd] in Hsame.
    apply Z.eqb_eq in Hsame.
    assert (0 < 2 ^ (ez - Z.min ez e)) as H1 by (apply Z.pow_pos_nonneg; lia).
    assert (0 < 2 ^ (e - Z.min ez e)) as H2 by (apply Z.pow_pos_nonneg; lia).
    revert Hsame H1 H2.
    generalize (2 ^ (ez - Z.min ez e)), (2 ^ (e - Z.min ez e)). intros P1 P2.
    destruct M as [|p|p], s; unfold cond_Zopp; intros Hsame H1 H2;
      try (exfalso; nia); exists p; (split; [reflexivity|]); nia. }
  assert (binary_round prec0 emax0 s p ez = S754_finite s m e) as Hround.
  { destruct (Z.le_gt_cases ez e) as [Hle|Hgt].
    - rewrite Z.min_l, Z.sub_diag, Z.pow_0_r, Z.mul_1_r in Hp by lia.
      destruct (e - ez) as [|d|d] eqn:Hd; try lia.
      + rewrite Z.pow_0_r in Hp. assert (p = m) as -> by lia.
        replace ez with e by lia. now apply round_canonical.
      + rewrite <- Zpos_shift in Hp. assert (p = Pos.iter xO m d) as -> by lia.
        replace ez with (e - Zpos d) by lia. now apply round_finer.
    - rewrite Z.min_r, Z.sub_diag, Z.pow_0_r, Z.mul_1_r in Hp by lia.
      destruct (ez - e) as [|d|d] eqn:Hd; try lia.
      rewrite <- Zpos_shift in Hp. assert (m = Pos.iter xO p d) as -> by lia.
      replace ez with (e + Zpos d) by lia. now apply round_coarser. }
  now destruct s.
Qed.

Lemma same_value_refl x : same_value x x = true.
Proof. unfold same_value. apply Z.eqb_refl. Qed.

Lemma canonical_unique s1 m1 e1 s2 m2 e2 :
  bounded prec0 emax0 m1 e1 = true -> bounded prec0 emax0 m2 e2 = true ->
  same_value (cond_Zopp s1 (Zpos m1), e1) (cond_Zopp s2 (Zpos m2), e2) = true ->
  S754_finite s1 m1 e1 = S754_finite s2 m2 e2.
Proof.
  intros H1 H2 Hsame.
  rewrite <- (normalize_exact _ e1 s1 m1 e1 false H1 (same_value_refl _)).
  exact (normalize_exact _ e1 s2 m2 e2 false H2 Hsame).
Qed.

Lemma SFeqb_finite_refl s m e :
  SFeqb (S754_finite s m e) (S754_finite s m e) = true.
Proof.
  unfold SFeqb. simpl. rewrite Z.compare_refl.
  change (PosDef.Pos.compare_cont Eq m m) with (Pos.compare m m).
  rewrite Pos.compare_refl. now destruct s.
Qed.

Lemma cond_Zopp_mul s a b : cond_Zopp s (a * b) = cond_Zopp s a * b.
Proof. destruct s; simpl; lia. Qed.

Lemma SFsub_finite sx mx ex sy my ey :
  SFsub prec0 emax0 (S754_finite sx mx ex) (S754_finite sy my ey)
  = binary_normalize prec0 emax0
      (fst (difference (cond_Zopp sx (Zpos mx), ex) (cond_Zopp sy (Zpos my), ey)))
      (snd (difference (cond_Zopp sx (Zpos mx), ex) (cond_Zopp sy (Zpos my), ey)))
      false.
Proof.
  unfold SFsub, difference, scaled. cbv zeta. cbn [fst snd].
  rewrite !shl_align_value by lia. now rewrite !cond_Zopp_mul.
Qed.

Lemma zero_difference z a b :
  same_value (0, z) (difference a b) = true -> same_value a b = true.
Proof.
  set (E := Z.min z (Z.min (snd a) (snd b))).
  assert (snd (difference a b) = Z.min (snd a) (snd b)) as Hab by reflexivity.
  rewrite (same_value_at E), (same_value_at E) by (rewrite ?Hab; simpl; lia).
  rewrite scaled_difference by lia. unfold scaled at 1. simpl fst. lia.
Qed.

(** Subtracting an exact difference gives the subtrahend back. *)
Lemma SFsub_inverse h v :
  SpecFloat.valid_binary prec0 emax0 h = true ->
  SpecFloat.valid_binary prec0 emax0 v = true ->
  SpecFloat.valid_binary prec0 emax0 (SFsub prec0 emax0 h v) = true ->
  match dyadic h, dyadic v, dyadic (SFsub prec0 emax0 h v) with
  | Some a, Some b, Some c => same_value c (difference a b)
  | _, _, _ => false
  end = true ->
  SFeqb (SFsub prec0 emax0 h (SFsub prec0 emax0 h v)) v = true.
Proof.
  destruct h as [sh|sh| |sh mh eh], v as [sv|sv| |sv mv ev];
    try (intros _ _ _; discriminate).
  - intros _ _ _ _. now destruct sh, sv.
  - intros _ _ _ _. simpl. rewrite negb_involutive. apply SFeqb_finite_refl.
  - intros _ _ _ _. simpl SFsub at 2. rewrite SFsub_finite.
    unfold difference. cbv zeta. cbn [fst snd]. now rewrite Z.sub_diag.
  - intros Hh Hv. simpl in Hh, Hv.
    destruct (SFsub prec0 emax0 (S754_finite sh mh eh) (S754_finite sv mv ev))
      as [sd|sd| |sd md ed]; try (intros _; discriminate).
    + intros _ Hexact. simpl dyadic in Hexact. apply zero_difference in Hexact.
      simpl SFsub. rewrite (canonical_unique _ _ _ _ _ _ Hh Hv Hexact).
      apply SFeqb_finite_refl.
    + intros Hd Hexact. simpl in Hd. simpl dyadic in Hexact.
      apply same_value_moved in Hexact.
      rewrite SFsub_finite.
      rewrite (normalize_exact _ _ sv mv ev false Hv).
      * apply SFeqb_finite_refl.
      * now rewrite <- surjective_pairing.
Qed.

End Rounding.

(** On binary64: when [H - y] is computed without rounding, subtracting
    the difference from [H] gives [y] back. *)
Lemma sub_exact_inverse (H y : float) :
  exact_difference H y = true -> PrimFloat.eqb (H - (H - y)) y = true.
Proof.
  unfold exact_difference. rewrite FloatAxioms.eqb_spec, !sub_spec.
  apply SFsub_inverse; try apply Prim2SF_valid.
  change (SFsub prec emax (Prim2SF H) (Prim2SF y)) with (SF64sub (Prim2SF H) (Prim2SF y)).
  rewrite <- sub_spec. apply Prim2SF_valid.
Qed.

End ExactFacts.

(** ** The proximity heuristics *)

Module ExtractorFacts.
Import Py Extractor.

Lemma elem_of_claim (ids : list word_id) (claimed : gset word_id) i :
  i ∈ claim ids claimed <-> In i ids \/ i ∈ claimed.
Proof.
  unfold claim. revert claimed.
  induction ids as [|j ids IH]; intros claimed; simpl.
  - tauto.
  - rewrite IH. rewrite elem_of_union, elem_of_singleton. intuition.
Qed.

Section Selection.
Variables (H f_x0 f_lly f_x1 f_ury : float) (words : list Word).

Lemma left_selected_claimed i :
  In i (map left_id (left_selected H f_x0 f_lly f_ury words)) ->
  i ∈ claimed_after_left H f_x0 f_lly f_ury words.
Proof. intros Hi. apply elem_of_claim. now left. Qed.

Lemma above_selected_unclaimed i :
  In i (map above_id (above_selected H f_x0 f_lly f_x1 f_ury words)) ->
  i ∉ claimed_after_left H f_x0 f_lly f_ury words.
Proof.
  intros Hi. apply in_map_iff in Hi as (c & <- & Hc).
  apply in_take, in_sort in Hc.
  apply in_map_iff in Hc as (w & <- & Hw).
  apply filter_In in Hw as [_ Hw].
  apply andb_prop in Hw as [Hw _]. apply negb_true_iff in Hw.
  now apply bool_decide_eq_false in Hw.
Qed.

Lemma above_selected_claimed i :
  In i (map above_id (above_selected H f_x0 f_lly f_x1 f_ury words)) ->
  i ∈ claimed_after_above H f_x0 f_lly f_x1 f_ury words.
Proof. intros Hi. apply elem_of_claim. now left. Qed.

Lemma claimed_left_above i :
  i ∈ claimed_after_left H f_x0 f_lly f_ury words ->
  i ∈ claimed_after_above H f_x0 f_lly f_x1 f_ury words.
Proof. intros Hi. apply elem_of_claim. now right. Qed.

Lemma closest_selected_unclaimed i :
  In i (map closest_id (closest_selected H f_x0 f_lly f_x1 f_ury words)) ->
  i ∉ claimed_after_above H f_x0 f_lly f_x1 f_ury words.
Proof.
  intros Hi. apply in_map_iff in Hi as (c & <- & Hc).
  apply in_take, in_sort in Hc.
  apply in_map_iff in Hc as (w & <- & Hw).
  apply filter_In in Hw as [_ Hw].
  apply andb_prop in Hw as [Hw _]. apply negb_true_iff in Hw.
  now apply bool_decide_eq_false in Hw.
Qed.

End Selection.

(** C1.  For every page height, field rectangle and word list, the word
    identities behind the three segments are pairwise disjoint: an
    identity selected by the left heuristic is selected neither by the
    above nor by the closest heuristic, and an identity selected by the
    above heuristic is not selected by the closest one.  The segments are
    the texts of these selections ([actual_left_text_list] and its two
    siblings are [map] of the text over them). *)
Theorem first_heuristic_wins (H f_x0 f_lly f_x1 f_ury : float) (words : list Word) :
  let left := map left_id (left_selected H f_x0 f_lly f_ury words) in
  let above := map above_id (above_selected H f_x0 f_lly f_x1 f_ury words) in
  let closest := map closest_id (closest_selected H f_x0 f_lly f_x1 f_ury words) in
  (forall i, In i left -> ~ In i above /\ ~ In i closest)
  /\ (forall i, In i above -> ~ In i closest).
Proof.
  intros left above closest. split.
  - intros i Hl. apply left_selected_claimed in Hl. split; intros Hi.
    + now apply (above_selected_unclaimed _ _ _ f_x1) in Hi.
    + apply closest_selected_unclaimed in Hi. apply Hi.
      now apply claimed_left_above.
  - intros i Ha Hc. apply above_selected_claimed in Ha.
    now apply closest_selected_unclaimed in Hc.
Qed.

(** *** The paths through [get_contextual_text_for_field] *)

Ltac run :=
  unfold mbind, M_bind, mret, M_ret, bind, ret, lift, emit, raise, try_except;
  simpl.

Lemma invalid_input_spec page_index rect :
  invalid_input page_index rect = true <->
  page_index < 0 \/ rect = None \/ rect = Some []
  \/ (exists coords, rect = Some coords /\ length coords <> 4%nat).
Proof.
  unfold invalid_input. rewrite orb_true_iff, Z.ltb_lt. split.
  - intros [Hneg|Hrect]; [now left|right].
    destruct rect as [[|a coords]|]; auto.
    right; right. exists (a :: coords). split; [easy|].
    apply negb_true_iff, Z.eqb_neq in Hrect. simpl in *. lia.
  - intros [Hneg|[->|[->|(coords & -> & Hlen)]]]; auto.
    right. destruct coords as [|a coords]; [easy|].
    apply negb_true_iff, Z.eqb_neq. simpl in *. lia.
Qed.

Lemma valid_input_spec page_index rect :
  invalid_input page_index rect = false <->
  0 <= page_index /\ exists a b c d, rect = Some [a; b; c; d].
Proof.
  split.
  - intros Hv. split.
    + destruct (Z.ltb_spec page_index 0) as [Hneg|]; [|easy].
      assert (invalid_input page_index rect = true) as Hi
        by (apply invalid_input_spec; now left). congruence.
    + destruct rect as [[|a [|b [|c [|d [|x coords]]]]]|];
        try (assert (invalid_input page_index None = true) as Hi
               by (apply invalid_input_spec; auto); congruence);
        try (assert (invalid_input page_index (Some []) = true) as Hi
               by (apply invalid_input_spec; auto); congruence);
        try (match type of Hv with
             | invalid_input _ (Some ?l) = _ =>
                 assert (invalid_input page_index (Some l) = true) as Hi
                   by (apply invalid_input_spec; right; right; right;
                       exists l; split; [reflexivity|simpl; lia]);
                 congruence
             end).
      now exists a, b, c, d.
  - intros [Hpos (a & b & c & d & ->)].
    unfold invalid_input. apply orb_false_iff. split; [now apply Z.ltb_ge|easy].
Qed.

Lemma ctx_invalid W path page_index rect :
  invalid_input page_index rect = true ->
  get_contextual_text_for_field W path page_index rect = (Ok INVALID_INPUT, []).
Proof. unfold get_contextual_text_for_field. now intros ->. Qed.

Lemma ctx_open_fails W path page_index rect e :
  invalid_input page_index rect = false ->
  fitz_open W path = Raise e ->
  get_contextual_text_for_field W path page_index rect
  = (Ok (ERROR_PREFIX +:+ exn_msg e), []).
Proof.
  intros Hv Hopen. unfold get_contextual_text_for_field. rewrite Hv.
  unfold contextual_text_body, open_document. run. now rewrite Hopen.
Qed.

Lemma ctx_out_of_bounds W path page_index rect doc :
  invalid_input page_index rect = false ->
  fitz_open W path = Ok doc ->
  Z.of_nat (length (doc_pages doc)) <= page_index ->
  get_contextual_text_for_field W path page_index rect
  = (Ok (out_of_bounds page_index), [Opened PyMuPDF path; Closed PyMuPDF path]).
Proof.
  intros Hv Hopen Hlen. unfold get_contextual_text_for_field. rewrite Hv.
  unfold contextual_text_body, open_document. run. rewrite Hopen. simpl.
  apply Z.leb_le in Hlen. now rewrite Hlen.
Qed.

Lemma ctx_words_fail W path page_index a b c d doc page e :
  0 <= page_index ->
  fitz_open W path = Ok doc ->
  doc_pages doc !! Z.to_nat page_index = Some page ->
  get_text_words page = Raise e ->
  get_contextual_text_for_field W path page_index (Some [a; b; c; d])
  = (Ok (ERROR_PREFIX +:+ exn_msg e), [Opened PyMuPDF path]).
Proof.
  intros Hpos Hopen Hpage Hwords. unfold get_contextual_text_for_field.
  replace (invalid_input page_index (Some [a; b; c; d])) with false
    by (symmetry; apply valid_input_spec; split; [easy|now exists a, b, c, d]).
  unfold contextual_text_body, open_document, load_page. run. rewrite Hopen. simpl.
  apply lookup_lt_Some in Hpage as Hlt.
  destruct (Z.leb_spec (Z.of_nat (length (doc_pages doc))) page_index); [lia|].
  now rewrite Hpage, Hwords.
Qed.

Lemma ctx_normal W path page_index a b c d doc page words :
  0 <= page_index ->
  fitz_open W path = Ok doc ->
  doc_pages doc !! Z.to_nat page_index = Some page ->
  get_text_words page = Ok words ->
  get_contextual_text_for_field W path page_index (Some [a; b; c; d])
  = (Ok (assemble
           (contextual_texts_output
              (actual_closest_text_list (rect_height page) a b c d words)
              (actual_left_text_list (rect_height page) a b d words)
              (actual_above_text_list (rect_height page) a b c d words))),
     [Opened PyMuPDF path; Closed PyMuPDF path]).
Proof.
  intros Hpos Hopen Hpage Hwords. unfold get_contextual_text_for_field.
  replace (invalid_input page_index (Some [a; b; c; d])) with false
    by (symmetry; apply valid_input_spec; split; [easy|now exists a, b, c, d]).
  unfold contextual_text_body, open_document, load_page. run. rewrite Hopen. simpl.
  apply lookup_lt_Some in Hpage as Hlt.
  destruct (Z.leb_spec (Z.of_nat (length (doc_pages doc))) page_index); [lia|].
  now rewrite Hpage, Hwords.
Qed.

(** The handler of the [try] returns, so the call does. *)
Lemma ctx_total W path page_index rect :
  exists s, outcome (get_contextual_text_for_field W path page_index rect) = Ok s.
Proof.
  unfold get_contextual_text_for_field.
  destruct (invalid_input page_index rect); [now exists INVALID_INPUT|].
  destruct (contextual_text_body W path page_index rect) as [[s|e] evs];
    unfold try_except; simpl; eauto.
Qed.

Lemma ctx_caught W path page_index rect e :
  invalid_input page_index rect = false ->
  outcome (contextual_text_body W path page_index rect) = Raise e ->
  outcome (get_contextual_text_for_field W path page_index rect)
  = Ok (ERROR_PREFIX +:+ exn_msg e).
Proof.
  intros Hv Hbody. unfold get_contextual_text_for_field. rewrite Hv.
  destruct (contextual_text_body W path page_index rect) as [[s|e'] evs];
    simpl in *; congruence.
Qed.

(** *** The Coordinate Normalizer on binary64 *)

Lemma all_round_trip_4096 : Spec.all_round_trip 4096 = true.
Proof. vm_compute. reflexivity. Qed.

Lemma whole_in_upto (n : nat) (z : Z) :
  0 <= z <= Z.of_nat n -> In (Spec.whole z) (Spec.whole_upto n).
Proof.
  intros Hz. unfold Spec.whole_upto. apply in_map_iff.
  exists (Z.to_nat z). split; [now rewrite Z2Nat.id|].
  apply in_seq. lia.
Qed.

Lemma all_round_trip_sound (n : nat) (y H : Z) :
  Spec.all_round_trip n = true ->
  0 <= y <= Z.of_nat n -> 0 <= H <= Z.of_nat n ->
  Spec.round_trips (Spec.whole H) (Spec.whole y) = true.
Proof.
  unfold Spec.all_round_trip. cbv zeta. intros Hall Hy HH.
  rewrite forallb_forall in Hall.
  specialize (Hall _ (whole_in_upto n H HH)).
  rewrite forallb_forall in Hall.
  exact (Hall _ (whole_in_upto n y Hy)).
Qed.

(** Whole coordinates between 0 and 4096, checked one by one. *)
Lemma normalize_self_inverse_whole (y H : Z) :
  0 <= y <= 4096 -> 0 <= H <= 4096 ->
  PrimFloat.eqb (normalize (normalize (Spec.whole y) (Spec.whole H)) (Spec.whole H))
                (Spec.whole y) = true.
Proof.
  intros Hy HH.
  apply (all_round_trip_sound 4096 y H all_round_trip_4096); lia.
Qed.

(** C7, as the code behaves.  The normalizer is the binary64 subtraction
    [H - y].  Whenever that subtraction is computed without rounding
    ([H], [y] and the float [H - y] are finite and the float is the
    difference of the two numbers), applying the normalizer twice gives
    [y] back under [==]. *)
Theorem normalize_self_inverse_exact (y H : float) :
  Spec.exact_difference H y = true ->
  PrimFloat.eqb (normalize (normalize y H) H) y = true.
Proof. unfold normalize. apply ExactFacts.sub_exact_inverse. Qed.

Lemma normalize_self_inverse_exact_witness :
  let y := 0.5%float in
  let H := 0x1.a4f1eb851eb85p+9%float in
  PrimFloat.eqb (normalize (normalize y H) H) y = true.
Proof.
  intros y H. apply (normalize_self_inverse_exact y H). vm_compute. reflexivity.
Defined.

(** C7 fails as stated.  With page height [H = 792] and the binary64
    value nearest to [y = 100.3], both non-negative, [H - y] is rounded
    and the round trip returns [100.29999999999995], which is not [y]. *)
Lemma normalize_not_self_inverse :
  let y := 0x1.9133333333333p+6%float in
  let H := 792%float in
  PrimFloat.leb 0 y = true /\ PrimFloat.leb 0 H = true
  /\ PrimFloat.eqb (normalize (normalize y H) H) y = false.
Proof. vm_compute. auto. Qed.

(** *** Validation, failures and the page bound *)

(** C3.  [get_contextual_text_for_field] always returns a string.  A
    negative page index, a missing or empty rectangle, or a rectangle
    that does not have exactly 4 coordinates gives the invalid-input
    sentinel, with no effect; any exception raised inside the [try]
    block, such as a failure of [fitz.open] or of [page.get_text], is
    turned into the string that starts with the error prefix. *)
Theorem never_raises_past_boundary W path page_index rect :
  (exists s, outcome (get_contextual_text_for_field W path page_index rect) = Ok s)
  /\ (page_index < 0 \/ rect = None \/ rect = Some []
      \/ (exists coords, rect = Some coords /\ length coords <> 4%nat) ->
      get_contextual_text_for_field W path page_index rect
      = (Ok "Invalid page index or field coordinates for contextual analysis.", []))
  /\ (forall e,
        invalid_input page_index rect = false ->
        outcome (contextual_text_body W path page_index rect) = Raise e ->
        outcome (get_contextual_text_for_field W path page_index rect)
        = Ok ("Error during contextual text extraction: " +:+ exn_msg e))
  /\ (forall e,
        invalid_input page_index rect = false ->
        fitz_open W path = Raise e ->
        outcome (get_contextual_text_for_field W path page_index rect)
        = Ok ("Error during contextual text extraction: " +:+ exn_msg e))
  /\ (forall doc page e a b c d,
        0 <= page_index -> rect = Some [a; b; c; d] ->
        fitz_open W path = Ok doc ->
        doc_pages doc !! Z.to_nat page_index = Some page ->
        get_text_words page = Raise e ->
        outcome (get_contextual_text_for_field W path page_index rect)
        = Ok ("Error during contextual text extraction: " +:+ exn_msg e)).
Proof.
  split; [apply ctx_total|]. split; [|split; [|split]].
  - intros Hbad. apply ctx_invalid. now apply invalid_input_spec.
  - intros e Hv Hbody. now apply ctx_caught.
  - intros e Hv Hopen. now rewrite (ctx_open_fails _ _ _ _ e).
  - intros doc page e a b c d Hpos -> Hopen Hpage Hwords.
    now rewrite (ctx_words_fail _ _ _ _ _ _ _ doc page e).
Qed.

(** C10.  With a non-negative page index and a rectangle of exactly 4
    coordinates, a page index at or beyond the page count of the opened
    document closes the document and returns
    ["Page index N out of bounds for PyMuPDF."], which is neither the
    invalid-input sentinel nor a string with the error prefix. *)
Theorem page_index_out_of_bounds W path page_index a b c d doc :
  0 <= page_index ->
  fitz_open W path = Ok doc ->
  Z.of_nat (length (doc_pages doc)) <= page_index ->
  get_contextual_text_for_field W path page_index (Some [a; b; c; d])
  = (Ok ("Page index " +:+ pretty page_index +:+ " out of bounds for PyMuPDF."),
     [Opened PyMuPDF path; Closed PyMuPDF path])
  /\ open_handles [Opened PyMuPDF path; Closed PyMuPDF path] = []
  /\ "Page index " +:+ pretty page_index +:+ " out of bounds for PyMuPDF."
     <> INVALID_INPUT
  /\ String.prefix ERROR_PREFIX
       ("Page index " +:+ pretty page_index +:+ " out of bounds for PyMuPDF.")
     = false.
Proof.
  intros Hpos Hopen Hlen. split; [|split; [|split]].
  - apply (ctx_out_of_bounds _ _ _ _ doc); auto.
    apply valid_input_spec. split; [easy|now exists a, b, c, d].
  - unfold open_handles. simpl. now rewrite decide_True.
  - discriminate.
  - reflexivity.
Qed.

Lemma page_index_out_of_bounds_witness :
  get_contextual_text_for_field
    (mkWorld (fun _ => Ok (mkDocument [mkPage 792 (Ok [])]))
             (fun _ => Raise (Exn "FileNotFoundError" "no such file"))
             (fun _ => Ok tt) (fun _ => "") (fun _ => true) (fun _ => "")
             (fun _ => Ok tt) (fun _ => Ok JsonOther))
    "form.pdf" 3 (Some [100; 700; 200; 715]%float)
  = (Ok "Page index 3 out of bounds for PyMuPDF.",
     [Opened PyMuPDF "form.pdf"; Closed PyMuPDF "form.pdf"]).
Proof.
  refine (proj1 (page_index_out_of_bounds _ "form.pdf" 3 _ _ _ _
                   (mkDocument [mkPage 792 (Ok [])]) _ _ _)).
  - lia.
  - reflexivity.
  - simpl. lia.
Defined.

(** *** Assembly *)

Lemma assemble_spec closest left above :
  assemble (contextual_texts_output closest left above)
  = Spec.spec_context closest left above.
Proof. now destruct closest, left, above. Qed.

Lemma filter_none {A} (f : A -> bool) (l : list A) :
  (forall x, In x l -> f x = false) -> List.filter f l = [].
Proof.
  induction l as [|x l IH]; simpl; intros Hall; [easy|].
  rewrite (Hall x) by now left. apply IH. intros y Hy. apply Hall. now right.
Qed.

(** C4.  For a valid call that reaches the words of the page, the
    returned string is the assembly the specification describes of the
    three heuristics' word lists: the segments ["Closest: ..."],
    ["Left: ..."], ["Above: ..."] that are non-empty, in that order,
    joined with [" | "], and the no-context sentinel when all three are
    empty; that is the case whenever no word lies in any heuristic's
    search window. *)
Theorem context_assembly W path page_index a b c d doc page words :
  0 <= page_index ->
  fitz_open W path = Ok doc ->
  doc_pages doc !! Z.to_nat page_index = Some page ->
  get_text_words page = Ok words ->
  let H := rect_height page in
  outcome (get_contextual_text_for_field W path page_index (Some [a; b; c; d]))
  = Ok (Spec.spec_context (actual_closest_text_list H a b c d words)
                          (actual_left_text_list H a b d words)
                          (actual_above_text_list H a b c d words))
  /\ (actual_closest_text_list H a b c d words = [] ->
      actual_left_text_list H a b d words = [] ->
      actual_above_text_list H a b c d words = [] ->
      outcome (get_contextual_text_for_field W path page_index (Some [a; b; c; d]))
      = Ok "No distinct contextual text found nearby (or heuristics need tuning).")
  /\ ((forall w, In w words ->
         in_left_window H a b d w = false
         /\ in_above_window H a c d w = false
         /\ in_closest_window H a b c d w = false) ->
      outcome (get_contextual_text_for_field W path page_index (Some [a; b; c; d]))
      = Ok "No distinct contextual text found nearby (or heuristics need tuning).").
Proof.
  intros Hpos Hopen Hpage Hwords H.
  rewrite (ctx_normal _ _ _ _ _ _ _ doc page words) by assumption.
  unfold outcome. simpl. fold H. split; [|split].
  - now rewrite assemble_spec.
  - now intros -> -> ->.
  - intros Hnone.
    assert (actual_left_text_list H a b d words = []) as ->.
    { unfold actual_left_text_list, left_selected, left_texts_candidates.
      rewrite filter_none; [easy|]. intros w Hw. now apply Hnone. }
    assert (actual_above_text_list H a b c d words = []) as ->.
    { unfold actual_above_text_list, above_selected, above_texts_candidates.
      rewrite filter_none; [easy|]. intros w Hw.
      apply andb_false_iff. right. now apply Hnone. }
    assert (actual_closest_text_list H a b c d words = []) as ->.
    { unfold actual_closest_text_list, closest_selected, closest_texts_candidates.
      rewrite filter_none; [easy|]. intros w Hw.
      apply andb_false_iff. right. now apply Hnone. }
    reflexivity.
Qed.

Lemma context_assembly_witness :
  outcome (get_contextual_text_for_field
             (Samples.world Samples.name_doc Samples.plain_pdf) "form.pdf" 0
             (Some [300; 700; 400; 715]%float))
  = Ok "No distinct contextual text found nearby (or heuristics need tuning).".
Proof.
  refine (proj2 (proj2 (context_assembly
                          (Samples.world Samples.name_doc Samples.plain_pdf)
                          "form.pdf" 0 300 700 400 715 Samples.name_doc
                          (Samples.name_page 0 0 0) [Samples.name_word 0 0 0]
                          _ _ _ _)) _).
  - lia.
  - reflexivity.
  - reflexivity.
  - reflexivity.
  - intros w [<-|[]]. vm_compute. auto.
Defined.

(** All three segments at once: Closest comes first although it is
    computed last, and each word appears in one segment only. *)
Example three_segments :
  get_contextual_text_for_field
    (Samples.world Samples.crowded_doc Samples.plain_pdf) "form.pdf" 0
    (Some Samples.name_rect)
  = (Ok "Closest: right Full | Left: up-left Name: | Above: A Section",
     [Opened PyMuPDF "form.pdf"; Closed PyMuPDF "form.pdf"]).
Proof. vm_compute. reflexivity. Qed.

(** *** The end-to-end scenario *)

(** C2.  A single page of height 792 holding exactly the word ["Name:"]
    at [(30, 75, 65, 85)], whatever its identity, page index 0 and the
    field rectangle [(100, 700, 200, 715)]: the call returns exactly
    ["Left: Name:"].  The word is in the left window and also within the
    closest-overall radius, but, being claimed by the left heuristic, it
    is left out of the closest selection. *)
Theorem end_to_end_left_label W path b l n :
  fitz_open W path = Ok (mkDocument [Samples.name_page b l n]) ->
  get_contextual_text_for_field W path 0 (Some [100; 700; 200; 715]%float)
  = (Ok "Left: Name:", [Opened PyMuPDF path; Closed PyMuPDF path])
  /\ in_left_window 792 100 700 715 (Samples.name_word b l n) = true
  /\ in_closest_window 792 100 700 200 715 (Samples.name_word b l n) = true
  /\ map left_id (left_selected 792 100 700 715 [Samples.name_word b l n])
     = [(b, l, n)]
  /\ closest_selected 792 100 700 200 715 [Samples.name_word b l n] = [].
Proof.
  intros Hopen.
  assert (left_selected 792 100 700 715 [Samples.name_word b l n]
          = [mkLeft "Name:" (b, l, n) 65 75]) as Hleft by reflexivity.
  assert (is_claimed (claimed_after_left 792 100 700 715 [Samples.name_word b l n])
                     (Samples.name_word b l n) = true) as Hclaimed.
  { apply bool_decide_eq_true. apply left_selected_claimed.
    rewrite Hleft. now left. }
  assert (above_selected 792 100 700 200 715 [Samples.name_word b l n] = [])
    as Habove.
  { unfold above_selected, above_texts_candidates.
    rewrite filter_none; [easy|]. intros w [<-|[]]. now rewrite Hclaimed. }
  assert (closest_selected 792 100 700 200 715 [Samples.name_word b l n] = [])
    as Hclosest.
  { unfold closest_selected, closest_texts_candidates.
    rewrite filter_none; [easy|]. intros w [<-|[]].
    apply andb_false_iff. left. apply negb_false_iff.
    apply bool_decide_eq_true. apply claimed_left_above.
    apply left_selected_claimed. rewrite Hleft. now left. }
  split; [|split; [|split; [|split]]].
  - rewrite (ctx_normal _ _ _ _ _ _ _ (mkDocument [Samples.name_page b l n])
               (Samples.name_page b l n) [Samples.name_word b l n]);
      try easy.
    unfold actual_closest_text_list, actual_left_text_list, actual_above_text_list.
    simpl rect_height. now rewrite Hclosest, Habove, Hleft.
  - reflexivity.
  - reflexivity.
  - now rewrite Hleft.
  - exact Hclosest.
Qed.

Lemma end_to_end_left_label_witness :
  get_contextual_text_for_field
    (Samples.world Samples.name_doc Samples.plain_pdf) "form.pdf" 0
    (Some [100; 700; 200; 715]%float)
  = (Ok "Left: Name:", [Opened PyMuPDF "form.pdf"; Closed PyMuPDF "form.pdf"]).
Proof.
  refine (proj1 (end_to_end_left_label
                   (Samples.world Samples.name_doc Samples.plain_pdf)
                   "form.pdf" 0 0 0 _)).
  reflexivity.
Defined.

End ExtractorFacts.

(** ** Outcomes and logs of composed computations *)

Section LogFacts.
Import Py.

Lemma outcome_bind_ok {A B} (m : M A) (k : A -> M B) a :
  outcome m = Ok a -> outcome (m ≫= k) = outcome (k a).
Proof.
  destruct m as [[a'|e] evs]; simpl; [|discriminate].
  intros [= ->]. unfold mbind, M_bind, bind. now destruct (k a).
Qed.

Lemma outcome_bind_raise {A B} (m : M A) (k : A -> M B) e :
  outcome m = Raise e -> outcome (m ≫= k) = Raise e.
Proof. destruct m as [[a|e'] evs]; simpl; [discriminate|]. now intros [= ->]. Qed.

Lemma events_bind_ok {A B} (m : M A) (k : A -> M B) a :
  outcome m = Ok a -> events (m ≫= k) = events m ++ events (k a).
Proof.
  destruct m as [[a'|e] evs]; simpl; [|discriminate].
  intros [= ->]. unfold mbind, M_bind, bind. now destruct (k a).
Qed.

Lemma events_bind_raise {A B} (m : M A) (k : A -> M B) e :
  outcome m = Raise e -> events (m ≫= k) = events m.
Proof. destruct m as [[a|e'] evs]; simpl; [discriminate|]. now intros [= ->]. Qed.

Lemma in_events_bind {A B} (m : M A) (k : A -> M B) ev :
  In ev (events (m ≫= k)) ->
  In ev (events m) \/ exists a, outcome m = Ok a /\ In ev (events (k a)).
Proof.
  destruct (outcome m) as [a|e] eqn:Hout.
  - rewrite (events_bind_ok _ _ a Hout). intros Hin.
    apply in_app_or in Hin as [Hin|Hin]; eauto.
  - rewrite (events_bind_raise _ _ e Hout). auto.
Qed.

Lemma in_events_try {A} (body : M A) handler ev :
  In ev (events (try_except body handler)) ->
  In ev (events body) \/ exists e, In ev (events (handler e)).
Proof.
  destruct body as [[a|e] evs]; simpl; [auto|].
  destruct (handler e) as [r evs'] eqn:Hh. simpl. intros Hin.
  apply in_app_or in Hin as [Hin|Hin]; [auto|].
  right. exists e. now rewrite Hh.
Qed.

Lemma events_bind_Forall {A B} (P : event -> Prop) (m : M A) (k : A -> M B) :
  Forall P (events m) -> (forall a, Forall P (events (k a))) ->
  Forall P (events (m ≫= k)).
Proof.
  intros Hm Hk. destruct (outcome m) as [a|e] eqn:Hout.
  - rewrite (events_bind_ok _ _ a Hout). apply Forall_app. split; auto.
  - now rewrite (events_bind_raise _ _ e Hout).
Qed.

Lemma events_try_Forall {A} (P : event -> Prop) (body : M A) handler :
  Forall P (events body) -> (forall e, Forall P (events (handler e))) ->
  Forall P (events (try_except body handler)).
Proof.
  intros Hb Hh. destruct body as [[a|e] evs]; simpl in *; [easy|].
  specialize (Hh e). destruct (handler e) as [r evs']. simpl in *.
  apply Forall_app. split; auto.
Qed.

Lemma events_mapM_Forall {A B} (P : event -> Prop) (f : A -> M B) l :
  (forall x, Forall P (events (f x))) -> Forall P (events (mapM f l)).
Proof.
  intros Hf. induction l as [|x l IH]; simpl; [constructor|].
  apply events_bind_Forall; [apply Hf|]. intros y.
  apply events_bind_Forall; [apply IH|]. intros ys. constructor.
Qed.

Lemma mapM_cons {A B} (f : A -> M B) x l :
  mapM f (x :: l) = f x ≫= fun y => mapM f l ≫= fun k => mret (y :: k).
Proof. reflexivity. Qed.

Lemma mapM_total {A B} (P : A -> B -> Prop) (f : A -> M B) l :
  Forall (fun x => exists y, outcome (f x) = Ok y /\ P x y) l ->
  exists ys, outcome (mapM f l) = Ok ys /\ Forall2 P l ys.
Proof.
  induction 1 as [|x l (y & Hy & HP) _ (ys & Hys & HPs)]; simpl.
  - exists []. split; [reflexivity|constructor].
  - exists (y :: ys). split; [|now constructor].
    rewrite (outcome_bind_ok _ _ y Hy). now rewrite (outcome_bind_ok _ _ ys Hys).
Qed.

Lemma handles_quiet hs log :
  Forall quiet log -> foldl handle_step hs log = hs.
Proof.
  induction 1 as [|e log He _ IH]; simpl; [easy|].
  destruct e; simpl in *; try easy.
Qed.

Lemma in_remove_first_ne h h' hs :
  h <> h' -> In h hs -> In h (remove_first h' hs).
Proof.
  intros Hne. induction hs as [|x hs IH]; simpl; [easy|].
  destruct (decide (h' = x)) as [->|Hx]; intros [->|Hin]; simpl; auto; congruence.
Qed.

Lemma handles_kept lib p hs log :
  In (lib, p) hs -> ~ In (Closed lib p) log ->
  In (lib, p) (foldl handle_step hs log).
Proof.
  revert hs. induction log as [|e log IH]; simpl; intros hs Hin Hno; [easy|].
  apply IH; [|tauto].
  destruct e as [lib' p'|lib' p'| | |]; simpl; auto.
  - apply in_or_app. now left.
  - apply in_remove_first_ne; [|easy]. intros [= -> ->]. apply Hno. now left.
Qed.

End LogFacts.

(** ** The field catalog *)

Module CatalogFacts.
Import Py Extractor.

Lemma get_or_dict entries key d :
  Pike.get_or (PdfDictionary entries) key d
  = mret (default d (Pike.assoc key entries)).
Proof.
  unfold Pike.get_or, Pike.get.
  rewrite (bind_lift_ok _ _ (Pike.assoc key entries)) by easy.
  now destruct (Pike.assoc key entries).
Qed.

Lemma get_or_cases o key d :
  (exists v, Pike.get_or o key d = mret v)
  \/ exists e, Pike.get_or o key d = (Raise e, []).
Proof.
  unfold Pike.get_or. destruct (Pike.get o key) as [v|e].
  - left. rewrite (bind_lift_ok _ _ v) by easy. eauto.
  - right. exists e. now rewrite (bind_lift_raise _ _ e).
Qed.

Lemma get_or_object o key d :
  Spec.answers_get o = true ->
  Pike.get_or o key d = mret (default d (Spec.entry o key)).
Proof.
  intros Hobj. now destruct o; try apply get_or_dict.
Qed.

Lemma float_list_numbers items :
  forallb Spec.is_number items = true ->
  exists fs,
    Pike.float_list (PdfArray items) = mret fs
    /\ Forall2 (fun item coordinate => Pike.to_float item = Ok coordinate) items fs.
Proof.
  intros Hnum. unfold Pike.float_list, Pike.iter.
  rewrite (bind_lift_ok _ _ items) by easy.
  induction items as [|r items IH].
  - exists []. split; [reflexivity|constructor].
  - simpl in Hnum. apply andb_prop in Hnum as [Hr Hrest].
    destruct (IH Hrest) as (fs & Hfs & Hall).
    unfold Spec.is_number in Hr.
    destruct (Pike.to_float r) as [f|e] eqn:Hf; [|discriminate].
    exists (f :: fs). split; [|now constructor].
    rewrite mapM_cons, (bind_lift_ok _ _ f) by easy. rewrite Hfs.
    now rewrite !bind_ret.
Qed.

Lemma get_field_options_object W field :
  Spec.answers_get field = true ->
  exists options, get_field_options W field = mret options.
Proof.
  intros Hobj. unfold get_field_options.
  destruct field as [| | | | | | |entries]; try discriminate;
    try (now exists []).
  unfold Pike.get. rewrite (bind_lift_ok _ _ (Pike.assoc "/Opt" entries)) by easy.
  destruct (Pike.assoc "/Opt" entries) as [[]|]; eauto.
Qed.

Lemma field_record_coercible W path field :
  Spec.coercible_field field = true ->
  exists r, outcome (field_record W path field) = Ok r /\ Spec.recorded W path field r.
Proof.
  intros Hco. unfold Spec.coercible_field in Hco.
  apply andb_prop in Hco as [Hco Hpage]. apply andb_prop in Hco as [Hobj Hrect].
  unfold field_record. rewrite !get_or_object, !bind_ret by assumption.
  assert (exists fs,
            Pike.float_list (default (PdfArray []) (Spec.entry field "/Rect"))
            = mret fs
            /\ Forall2 (fun item coordinate => Pike.to_float item = Ok coordinate)
                       (Spec.rect_items field) fs) as (fs & Hfs & Hitems).
  { unfold Spec.rect_items.
    destruct (Spec.entry field "/Rect") as [[]|]; try discriminate.
    - now apply float_list_numbers.
    - exists []. split; [reflexivity|constructor]. }
  rewrite Hfs, !bind_ret.
  destruct (get_field_options_object W field Hobj) as (options & Hopts).
  rewrite Hopts, !bind_ret.
  assert (exists page_index,
            Pike.to_int (Spec.page_entry field) = Ok page_index)
    as (page_index & Hidx).
  { unfold Spec.page_entry.
    destruct (Spec.entry field "/Page") as [o|]; simpl; [|eauto].
    destruct (Pike.to_int o); [eauto|discriminate]. }
  fold (Spec.page_entry field). rewrite (bind_lift_ok _ _ page_index) by easy.
  destruct (ExtractorFacts.ctx_total W path page_index (Some fs)) as (s & Hs).
  eexists. rewrite (outcome_bind_ok _ _ s Hs). split; [reflexivity|].
  unfold Spec.recorded. simpl.
  split; [now destruct field|]. split; [now destruct field|].
  split; [assumption|]. split; [reflexivity|].
  split; [now rewrite Hopts|].
  exists page_index. split; [assumption|]. split; [assumption|].
  intros Hbad.
  assert (invalid_input page_index (Some fs) = true) as Hinvalid.
  { apply ExtractorFacts.invalid_input_spec.
    destruct Hbad as [Hlen|Hneg]; [|now left].
    right; right; right. now exists fs. }
  rewrite (ExtractorFacts.ctx_invalid W path _ _ Hinvalid) in Hs.
  simpl in Hs. congruence.
Qed.

Lemma extract_walks_fields W path pdf fields :
  pikepdf_open W path = Ok pdf ->
  Spec.form_fields pdf = Some fields ->
  extract_form_fields W path
  = emit (Opened PikePDF path) ≫= fun _ => mapM (field_record W path) fields.
Proof.
  intros Hopen Hform. unfold extract_form_fields.
  rewrite (bind_lift_ok _ _ pdf) by easy. f_equal.
  unfold Spec.form_fields in Hform.
  destruct (Pike.assoc "/AcroForm" (Root pdf)) as [[| | | | | | |acro]|];
    try discriminate.
  rewrite get_or_dict, bind_ret.
  destruct (Pike.iter (default (PdfArray []) (Pike.assoc "/Fields" acro)))
    as [items|e] eqn:Hiter; [|discriminate].
  injection Hform as <-. now rewrite (bind_lift_ok _ _ items).
Qed.

(** C5, as the code behaves.  When the document opens and every field of
    its form is a pikepdf object whose [/Rect], if present, is an array
    of numbers of any length and whose [/Page], if present, is a number,
    [extract_form_fields] returns one record per field, in source order.
    Each record holds the field's name and type, the items of [/Rect] as
    floats, the string of the page entry, the decoded options and the
    string the context engine returned for that page and rectangle; this
    string is the invalid-input sentinel when the rectangle does not have
    exactly 4 coordinates or the page is negative.  A field that is not
    a dictionary is recorded with the defaults. *)
Theorem catalog_of_coercible_fields W path pdf fields :
  pikepdf_open W path = Ok pdf ->
  Spec.form_fields pdf = Some fields ->
  forallb Spec.coercible_field fields = true ->
  exists records,
    outcome (extract_form_fields W path) = Ok records
    /\ length records = length fields
    /\ Forall2 (Spec.recorded W path) fields records.
Proof.
  intros Hopen Hform Hco.
  rewrite (extract_walks_fields _ _ pdf fields) by assumption.
  rewrite (outcome_bind_ok _ _ tt) by reflexivity.
  destruct (mapM_total (Spec.recorded W path) (field_record W path) fields)
    as (records & Hout & Hall).
  { apply Forall_forall. intros field Hin. apply field_record_coercible.
    rewrite forallb_forall in Hco. apply Hco. now apply list_elem_of_In. }
  exists records. repeat split; [assumption| |assumption].
  symmetry. exact (Forall2_length _ _ _ Hall).
Qed.

Lemma catalog_of_coercible_fields_witness :
  exists records,
    outcome (extract_form_fields
               (Samples.world Samples.name_doc
                  (Samples.form [Samples.text_field; Samples.short_rect_field;
                                 PdfName "/Stray"]))
               "form.pdf") = Ok records
    /\ length records = 3%nat
    /\ Forall2 (Spec.recorded
                  (Samples.world Samples.name_doc
                     (Samples.form [Samples.text_field; Samples.short_rect_field;
                                    PdfName "/Stray"]))
                  "form.pdf")
               [Samples.text_field; Samples.short_rect_field; PdfName "/Stray"]
               records.
Proof.
  apply (catalog_of_coercible_fields
           (Samples.world Samples.name_doc
              (Samples.form [Samples.text_field; Samples.short_rect_field;
                             PdfName "/Stray"]))
           "form.pdf"
           (Samples.form [Samples.text_field; Samples.short_rect_field;
                          PdfName "/Stray"])
           [Samples.text_field; Samples.short_rect_field; PdfName "/Stray"]);
    reflexivity.
Defined.

(** The records of that form: the label found for the first field, the
    sentinel for the rectangle of three coordinates, and the defaults
    with the sentinel for the entry that is not a dictionary. *)
Example catalog_of_sample_form :
  outcome (extract_form_fields
             (Samples.world Samples.name_doc
                (Samples.form [Samples.text_field; Samples.short_rect_field;
                               PdfName "/Stray"]))
             "form.pdf")
  = Ok [mkFieldRecord "Name" "/Tx" [100; 700; 200; 715]%float "0" [] "Left: Name:";
        mkFieldRecord "Short" "/Tx" [100; 700; 200]%float "0" [] INVALID_INPUT;
        mkFieldRecord "" "" [] "0" [] INVALID_INPUT].
Proof. vm_compute. reflexivity. Qed.

(** C5 fails as stated.  A form whose second field has a rectangle of
    names instead of numbers: [float(r)] raises and the exception leaves
    [extract_form_fields]; no record list is returned. *)
Lemma catalog_aborts_on_malformed_rect :
  outcome (extract_form_fields
             (Samples.world Samples.name_doc
                (Samples.form [Samples.text_field; Samples.bad_rect_field]))
             "form.pdf")
  = Raise (Exn "TypeError" "object is not a number").
Proof. vm_compute. reflexivity. Qed.

(** A bare number among the fields has no method [get]: the catalog is
    not built either. *)
Example catalog_aborts_on_native_field :
  outcome (extract_form_fields
             (Samples.world Samples.name_doc
                (Samples.form [Samples.text_field; PdfInteger 7]))
             "form.pdf")
  = Raise (Exn "AttributeError" "'int' object has no attribute 'get'").
Proof. vm_compute. reflexivity. Qed.

End CatalogFacts.

(** ** The form writer *)

Module FillerFacts.
Import Py Filler.

Lemma assoc_set_entry_same key value entries :
  Pike.assoc key (Pike.set_entry key value entries) = Some value.
Proof.
  induction entries as [|[k v] entries IH]; simpl.
  - now rewrite String.eqb_refl.
  - destruct (String.eqb k key) eqn:Hk; simpl; now rewrite Hk.
Qed.

Lemma assoc_set_entry_other key key' value entries :
  key <> key' ->
  Pike.assoc key' (Pike.set_entry key value entries) = Pike.assoc key' entries.
Proof.
  intros Hne. induction entries as [|[k v] entries IH]; simpl.
  - destruct (String.eqb_spec key key'); [contradiction|reflexivity].
  - destruct (String.eqb_spec k key) as [->|Hk]; simpl.
    + destruct (String.eqb_spec key key'); [contradiction|reflexivity].
    + now rewrite IH.
Qed.

Lemma with_state_reads v entries :
  exists entries',
    Spec.with_state v entries = PdfDictionary entries'
    /\ Pike.assoc "/V" entries' = Some v
    /\ Pike.assoc "/AS" entries' = Some v
    /\ forall key, key <> "/V" -> key <> "/AS" ->
                   Pike.assoc key entries' = Pike.assoc key entries.
Proof.
  eexists. split; [reflexivity|]. split; [|split].
  - rewrite assoc_set_entry_other by discriminate. apply assoc_set_entry_same.
  - apply assoc_set_entry_same.
  - intros key HV HAS. rewrite !assoc_set_entry_other; congruence.
Qed.

Lemma set_state_dict entries v :
  set_state (PdfDictionary entries) v = mret (Spec.with_state v entries).
Proof. reflexivity. Qed.

Lemma find_filter {A} (f : A -> bool) l :
  List.find f l = match List.filter f l with x :: _ => Some x | [] => None end.
Proof. induction l as [|x l IH]; simpl; [easy|]. now destruct (f x). Qed.

Lemma set_named_state_raises field e :
  set_named_state field (Raise e) = (Raise e, []).
Proof. reflexivity. Qed.

(** [check_box] with an appearance-state dictionary that has a key other
    than ["/Off"]: the first such key is written, as a string object. *)
Lemma check_box_on_key entries ap states key :
  Pike.assoc "/AP" entries = Some (PdfDictionary ap) ->
  Pike.assoc "/N" ap = Some (PdfDictionary states) ->
  first_on_key (map fst states) = Some key ->
  check_box (PdfDictionary entries)
  = mret (Spec.with_state (PdfString key) entries).
Proof.
  intros HAP HN Hkey. unfold check_box.
  rewrite CatalogFacts.get_or_dict, bind_ret, HAP. simpl default.
  destruct ap as [|entry ap]; [discriminate|].
  unfold truthy_and_contains, getitem. rewrite HN.
  rewrite (bind_lift_ok _ _ true) by easy.
  rewrite (bind_lift_ok _ _ (PdfDictionary states)) by easy.
  simpl has_keys. unfold keys. rewrite (bind_lift_ok _ _ (map fst states)) by easy.
  now rewrite Hkey.
Qed.

(** [check_box] never writes the name [Yes]: either it writes a key of
    the appearance-state dictionary that is not ["/Off"], or it raises
    and writes nothing. *)
Lemma check_box_cases entries :
  (exists key,
     key <> "/Off"
     /\ check_box (PdfDictionary entries)
        = mret (Spec.with_state (PdfString key) entries))
  \/ exists e, check_box (PdfDictionary entries) = (Raise e, []).
Proof.
  unfold check_box. rewrite CatalogFacts.get_or_dict, bind_ret.
  destruct (truthy_and_contains (default (PdfDictionary []) (Pike.assoc "/AP" entries))
                                "/N") as [[|]|e] eqn:Hhas.
  2:{ right. rewrite (bind_lift_ok _ _ false) by easy. eexists. reflexivity. }
  2:{ right. exists e. now rewrite (bind_lift_raise _ _ e). }
  rewrite (bind_lift_ok _ _ true) by easy.
  destruct (getitem (default (PdfDictionary []) (Pike.assoc "/AP" entries)) "/N")
    as [n_dict|e]; [|right; exists e; now rewrite (bind_lift_raise _ _ e)].
  rewrite (bind_lift_ok _ _ n_dict) by easy.
  destruct (has_keys n_dict); [|right; eexists; reflexivity].
  destruct (keys n_dict) as [ks|e];
    [|right; exists e; now rewrite (bind_lift_raise _ _ e)].
  rewrite (bind_lift_ok _ _ ks) by easy.
  destruct (first_on_key ks) as [key|] eqn:Hkey; [|right; eexists; reflexivity].
  left. exists key. split; [|reflexivity].
  unfold first_on_key in Hkey. apply find_some in Hkey as [_ Hkey].
  now apply negb_true_iff, String.eqb_neq in Hkey.
Qed.

(** One turn of the loop on a dictionary whose name is mapped. *)
Lemma fill_field_mapped W mapping entries value :
  mapping !! Spec.field_name W (PdfDictionary entries) = Some value ->
  fill_field W mapping (PdfDictionary entries)
  = try_except
      (write_value (PdfDictionary entries)
                   (Spec.field_name W (PdfDictionary entries))
                   (Spec.field_type W (PdfDictionary entries)) value
       ≫= fun field' => mret (field', true))
      (fun e =>
         print ("Warning: Could not fill field '"
                +:+ Spec.field_name W (PdfDictionary entries) +:+ "': "
                +:+ exn_msg e)
         ≫= fun _ => mret (PdfDictionary entries, false)).
Proof.
  intros Hmap. unfold fill_field.
  rewrite (CatalogFacts.get_or_dict entries "/T"), bind_ret.
  unfold Spec.field_name in Hmap. rewrite Hmap. cbv beta iota.
  now rewrite (CatalogFacts.get_or_dict entries "/FT"), bind_ret.
Qed.

Lemma fill_field_unmapped W mapping entries :
  mapping !! Spec.field_name W (PdfDictionary entries) = None ->
  fill_field W mapping (PdfDictionary entries)
  = (Ok (PdfDictionary entries, false),
     [Printed ("Info: No mapping found for field '"
               +:+ Spec.field_name W (PdfDictionary entries) +:+ "'")]).
Proof.
  intros Hmap. unfold fill_field.
  rewrite (CatalogFacts.get_or_dict entries "/T"), bind_ret.
  unfold Spec.field_name in Hmap. now rewrite Hmap.
Qed.

Lemma write_value_button field field_name value :
  write_value field field_name "/Btn" value
  = (match value with
     | PyBool true => check_box field
     | PyBool false => set_named_state field Name_Off
     | _ => lift (Pike.setitem field "/V" (PdfString (py_str value)))
     end
     ≫= fun field' =>
          print ("Filled button field '" +:+ field_name +:+ "': " +:+ py_str value)
          ≫= fun _ => mret field').
Proof. reflexivity. Qed.

(** A button whose write succeeds is counted as filled. *)
Lemma button_written W mapping entries value field' :
  Spec.field_type W (PdfDictionary entries) = "/Btn" ->
  mapping !! Spec.field_name W (PdfDictionary entries) = Some value ->
  match value with
  | PyBool true => check_box (PdfDictionary entries)
  | PyBool false => set_named_state (PdfDictionary entries) Name_Off
  | _ => lift (Pike.setitem (PdfDictionary entries) "/V" (PdfString (py_str value)))
  end = mret field' ->
  outcome (fill_field W mapping (PdfDictionary entries)) = Ok (field', true).
Proof.
  intros Htype Hmap Hwrite.
  rewrite (fill_field_mapped _ _ _ value Hmap), Htype, write_value_button, Hwrite.
  now rewrite bind_ret.
Qed.

(** A button whose write raises is left as it was, is not counted, and
    one warning is printed. *)
Lemma button_not_written W mapping entries value e :
  Spec.field_type W (PdfDictionary entries) = "/Btn" ->
  mapping !! Spec.field_name W (PdfDictionary entries) = Some value ->
  match value with
  | PyBool true => check_box (PdfDictionary entries)
  | PyBool false => set_named_state (PdfDictionary entries) Name_Off
  | _ => lift (Pike.setitem (PdfDictionary entries) "/V" (PdfString (py_str value)))
  end = (Raise e, []) ->
  fill_field W mapping (PdfDictionary entries)
  = (Ok (PdfDictionary entries, false),
     [Printed ("Warning: Could not fill field '"
               +:+ Spec.field_name W (PdfDictionary entries) +:+ "': "
               +:+ exn_msg e)]).
Proof.
  intros Htype Hmap Hwrite.
  rewrite (fill_field_mapped _ _ _ value Hmap), Htype, write_value_button, Hwrite.
  reflexivity.
Qed.

(** With the value [False] nothing is written, whatever the field holds:
    [pikepdf.Name("Off")] raises before the first assignment. *)
Lemma uncheck_writes_nothing W mapping entries :
  Spec.field_type W (PdfDictionary entries) = "/Btn" ->
  mapping !! Spec.field_name W (PdfDictionary entries) = Some (PyBool false) ->
  fill_field W mapping (PdfDictionary entries)
  = (Ok (PdfDictionary entries, false),
     [Printed ("Warning: Could not fill field '"
               +:+ Spec.field_name W (PdfDictionary entries)
               +:+ "': Name objects must begin with '/'")]).
Proof.
  intros Htype Hmap.
  now rewrite (button_not_written _ _ _ (PyBool false)
                 (Pike.ValueError "Name objects must begin with '/'") Htype Hmap).
Qed.

(** With the value [True] the field ends with [/V] and [/AS] set to a key
    of its appearance-state dictionary other than ["/Off"], written as a
    string object, or it is left as it was and not counted: the name
    [Yes] is never written. *)
Lemma check_writes_key_or_nothing W mapping entries :
  Spec.field_type W (PdfDictionary entries) = "/Btn" ->
  mapping !! Spec.field_name W (PdfDictionary entries) = Some (PyBool true) ->
  (exists key,
     key <> "/Off"
     /\ outcome (fill_field W mapping (PdfDictionary entries))
        = Ok (Spec.with_state (PdfString key) entries, true))
  \/ outcome (fill_field W mapping (PdfDictionary entries))
     = Ok (PdfDictionary entries, false).
Proof.
  intros Htype Hmap.
  destruct (check_box_cases entries) as [(key & Hkey & Hrun)|(e & Hrun)].
  - left. exists key. split; [assumption|].
    now apply (button_written _ _ _ (PyBool true)).
  - right. now rewrite (button_not_written _ _ _ (PyBool true) e Htype Hmap Hrun).
Qed.

(** With a value that is not a boolean, [/V] becomes the string of the
    value and the field is counted. *)
Lemma button_string_written W mapping entries value :
  Spec.field_type W (PdfDictionary entries) = "/Btn" ->
  mapping !! Spec.field_name W (PdfDictionary entries) = Some value ->
  (forall b, value <> PyBool b) ->
  outcome (fill_field W mapping (PdfDictionary entries))
  = Ok (PdfDictionary (Pike.set_entry "/V" (PdfString (py_str value)) entries), true).
Proof.
  intros Htype Hmap Hnb. apply (button_written _ _ _ value); try assumption.
  destruct value as [|b| |]; try reflexivity. now destruct (Hnb b).
Qed.

(** C8, on concrete runs.  The mapping gives the checkbox ["Agree"] the
    value [False]: the turn of the loop leaves the field as it was (no
    [/V], no [/AS]), does not count it and prints a warning, and the
    whole run still saves and reports 0 of 1 fields filled.  The same
    happens for the value [True] on a checkbox without an appearance
    dictionary, where the fallback [pikepdf.Name("Yes")] is taken.  With
    an appearance-state dictionary the key ["/On"] is written to [/V] and
    [/AS], as a string object. *)
Theorem checkbox_state_not_written :
  let W := Samples.world Samples.name_doc (Samples.form [Samples.check_field]) in
  fill_field W (<["Agree" := PyBool false]> ∅) Samples.check_field
  = (Ok (Samples.check_field, false),
     [Printed "Warning: Could not fill field 'Agree': Name objects must begin with '/'"])
  /\ Pike.assoc "/V" Samples.check_entries = None
  /\ Pike.assoc "/AS" Samples.check_entries = None
  /\ fill_pdf_form W "form.pdf" (MappingDict (<["Agree" := PyBool false]> ∅))
                   "out.pdf"
     = (Ok true,
        [Opened PikePDF "form.pdf";
         Printed "Warning: Could not fill field 'Agree': Name objects must begin with '/'";
         Saved "out.pdf" [Samples.check_field];
         Closed PikePDF "form.pdf";
         Printed "Success: Filled 0 out of 1 fields.";
         Printed "Filled PDF saved to: out.pdf"])
  /\ fill_field W (<["Agree" := PyBool true]> ∅) Samples.plain_check_field
     = (Ok (Samples.plain_check_field, false),
        [Printed "Warning: Could not fill field 'Agree': Name objects must begin with '/'"])
  /\ fill_field W (<["Agree" := PyBool true]> ∅) Samples.check_field
     = (Ok (Spec.with_state (PdfString "/On") Samples.check_entries, true),
        [Printed "Filled button field 'Agree': True"]).
Proof. vm_compute. repeat split; reflexivity. Qed.

(** *** The loop over the fields *)

Ltac log_step :=
  first
    [ apply events_bind_Forall; [|intros ?]
    | apply events_try_Forall; [|intros ?]
    | solve [repeat constructor] ].

Lemma check_box_prints field : Forall is_print (events (check_box field)).
Proof.
  unfold check_box, set_state, Pike.get_or.
  repeat (log_step || match goal with
                      | |- context [if ?c then _ else _] => destruct c
                      | |- context [match ?x with _ => _ end] => destruct x
                      end).
Qed.

Lemma write_value_prints field field_name field_type value :
  Forall is_print (events (write_value field field_name field_type value)).
Proof.
  unfold write_value, set_state.
  repeat (log_step || apply check_box_prints
          || match goal with
             | |- context [if ?c then _ else _] => destruct c
             | |- context [match ?x with _ => _ end] => destruct x
             end).
Qed.

Lemma fill_field_prints W mapping field :
  Forall is_print (events (fill_field W mapping field)).
Proof.
  unfold fill_field, Pike.get_or.
  repeat (log_step || apply write_value_prints
          || match goal with
             | |- context [match ?x with _ => _ end] => destruct x
             end).
Qed.

Lemma fill_fields_prints W mapping fields filled total :
  Forall is_print (events (fill_fields W mapping fields filled total)).
Proof.
  revert filled total. induction fields as [|field rest IH]; intros filled total.
  - constructor.
  - simpl. apply events_bind_Forall; [apply fill_field_prints|].
    intros [field' flag]. apply events_bind_Forall; [apply IH|].
    intros [[rest' filled'] total']. constructor.
Qed.

Lemma fill_field_insert W mapping key value field :
  Spec.field_name W field <> key ->
  fill_field W (<[key := value]> mapping) field = fill_field W mapping field.
Proof.
  intros Hne. destruct (Spec.answers_get field) eqn:Hobj; [|now destruct field].
  unfold fill_field. rewrite (CatalogFacts.get_or_object field "/T") by assumption.
  rewrite !bind_ret. cbv zeta.
  replace (Pike.str W (default (PdfString "") (Spec.entry field "/T")))
    with (Spec.field_name W field) by (now destruct field).
  now rewrite lookup_insert_ne by congruence.
Qed.

(** A pikepdf object that is not a dictionary has no name and accepts no
    entry: the turn of the loop leaves it as it is and does not count
    it. *)
Lemma fill_field_other W mapping field :
  Spec.answers_get field = true ->
  (forall entries, field <> PdfDictionary entries) ->
  outcome (fill_field W mapping field) = Ok (field, false).
Proof.
  intros Hobj Hnd.
  destruct field as [| | | | | | |entries]; try discriminate;
    [| | |now destruct (Hnd entries)];
    unfold fill_field; simpl; destruct (mapping !! ""); reflexivity.
Qed.

Lemma fill_field_native W mapping field :
  Spec.answers_get field = false ->
  exists e, fill_field W mapping field = (Raise e, []).
Proof. destruct field; try discriminate; intros _; eexists; reflexivity. Qed.

Lemma fill_fields_insert W mapping key value fields filled total :
  ~ In key (map (Spec.field_name W) fields) ->
  fill_fields W (<[key := value]> mapping) fields filled total
  = fill_fields W mapping fields filled total.
Proof.
  revert filled total. induction fields as [|field rest IH];
    intros filled total Hnot; [reflexivity|].
  simpl in *. rewrite fill_field_insert by tauto.
  apply bind_ext. intros [field' flag]. now rewrite IH by tauto.
Qed.

Lemma fill_field_frame W mapping field field' flag evs :
  fill_field W mapping field = (Ok (field', flag), evs) ->
  mapping !! Spec.field_name W field = None -> field' = field.
Proof.
  intros Hrun Hnone. destruct (Spec.answers_get field) eqn:Hobj.
  - destruct field as [| | | | | | |entries]; try discriminate.
    4:{ rewrite fill_field_unmapped in Hrun by assumption. congruence. }
    all: match type of Hrun with
         | fill_field _ _ ?f = _ =>
             assert (outcome (fill_field W mapping f) = Ok (f, false)) as Hout
               by (now apply fill_field_other)
         end; rewrite Hrun in Hout; simpl in Hout; congruence.
  - destruct (fill_field_native W mapping field Hobj) as (e & He). congruence.
Qed.

Lemma fill_fields_frame W mapping fields filled total fields' filled' total' :
  outcome (fill_fields W mapping fields filled total)
  = Ok (fields', filled', total') ->
  Forall2 (fun f f' => mapping !! Spec.field_name W f = None -> f' = f)
          fields fields'.
Proof.
  revert filled total fields' filled' total'.
  induction fields as [|field rest IH]; intros filled total fields' filled' total'.
  - simpl. intros [= <- _ _]. constructor.
  - simpl. destruct (fill_field W mapping field) as [[[field1 flag]|e] evs] eqn:Hf;
      [|discriminate].
    rewrite (outcome_bind_ok _ _ (field1, flag)) by reflexivity.
    destruct (fill_fields W mapping rest (if flag then filled + 1 else filled)
                          (total + 1)) as [[[[rest1 f1] t1]|e] evs1] eqn:Hr;
      [|discriminate].
    rewrite (outcome_bind_ok _ _ (rest1, f1, t1)) by reflexivity.
    intros [= <- _ _]. constructor.
    + now apply (fill_field_frame _ _ _ _ flag evs).
    + apply (IH (if flag then filled + 1 else filled) (total + 1) rest1 f1 t1).
      now rewrite Hr.
Qed.

Lemma fill_body_walks W input mapping output pdf fields :
  pikepdf_open W input = Ok pdf ->
  Spec.form_fields pdf = Some fields ->
  fill_body W input mapping output
  = emit (Opened PikePDF input) ≫= fun _ =>
    fill_fields W mapping fields 0 0 ≫= fun '(fields', filled_count, total_fields) =>
    save_filled W input output fields' filled_count total_fields.
Proof.
  intros Hopen Hform. unfold fill_body.
  rewrite (bind_lift_ok _ _ pdf) by easy. f_equal.
  unfold Spec.form_fields in Hform.
  destruct (Pike.assoc "/AcroForm" (Root pdf)) as [[| | | | | | |acro]|];
    try discriminate.
  rewrite CatalogFacts.get_or_dict, bind_ret.
  destruct (Pike.iter (default (PdfArray []) (Pike.assoc "/Fields" acro)))
    as [items|e] eqn:Hiter; [|discriminate].
  injection Hform as <-. now rewrite (bind_lift_ok _ _ items).
Qed.

Lemma fill_body_insert W input mapping output key value :
  (forall pdf fields,
     pikepdf_open W input = Ok pdf -> Spec.form_fields pdf = Some fields ->
     ~ In key (map (Spec.field_name W) fields)) ->
  fill_body W input (<[key := value]> mapping) output
  = fill_body W input mapping output.
Proof.
  intros Hfresh.
  destruct (pikepdf_open W input) as [pdf|e] eqn:Hopen.
  - destruct (Spec.form_fields pdf) as [fields|] eqn:Hform.
    + rewrite !(fill_body_walks _ _ _ _ pdf fields) by assumption.
      now rewrite (fill_fields_insert _ _ _ _ _ _ _ (Hfresh pdf fields eq_refl Hform)).
    + unfold fill_body. rewrite !(bind_lift_ok _ _ pdf) by easy. f_equal.
      unfold Spec.form_fields in Hform.
      destruct (Pike.assoc "/AcroForm" (Root pdf)) as [[| | | | | | |acro]|];
        try reflexivity.
      rewrite !CatalogFacts.get_or_dict, !bind_ret.
      destruct (Pike.iter (default (PdfArray []) (Pike.assoc "/Fields" acro)))
        as [items|e] eqn:Hiter; [discriminate|].
      now rewrite !(bind_lift_raise _ _ e).
  - unfold fill_body. now rewrite !(bind_lift_raise _ _ e).
Qed.

Lemma save_filled_saved W input output fields filled total path fields' :
  In (Saved path fields') (events (save_filled W input output fields filled total)) ->
  path = output /\ fields' = fields.
Proof.
  unfold save_filled. cbv zeta.
  destruct (negb (String.eqb (path_dirname W output) "")
            && negb (path_exists W (path_dirname W output)));
    [destruct (makedirs W (path_dirname W output)) as [[]|e]|];
    destruct (pikepdf_save W output) as [[]|e'];
    unfold print; ExtractorFacts.run; intros Hin;
    repeat (destruct Hin as [Hin|Hin]; try discriminate);
    try contradiction; now injection Hin as <- <-.
Qed.

Lemma not_saved_print log path fields :
  Forall is_print log -> ~ In (Saved path fields) log.
Proof.
  intros Hall Hin. rewrite Forall_forall in Hall.
  exact (Hall _ (proj2 (list_elem_of_In _ _) Hin)).
Qed.

(** C9, as the code behaves.  In a run of [fill_pdf_form] on a mapping:
    the fields handed to [pdf.save] agree, position by position, with the
    fields of the document wherever the field's name is absent from the
    mapping; and a mapping key that names no field of the document changes
    nothing at all: the run with the key is equal to the run without it,
    so nothing is written for the key and no line is printed about it. *)
Theorem unmapped_untouched W input mapping output :
  (forall pdf fields path fields',
     pikepdf_open W input = Ok pdf ->
     Spec.form_fields pdf = Some fields ->
     In (Saved path fields')
        (events (fill_pdf_form W input (MappingDict mapping) output)) ->
     path = output
     /\ Forall2 (fun f f' => mapping !! Spec.field_name W f = None -> f' = f)
                fields fields')
  /\ (forall key value,
        (forall pdf fields,
           pikepdf_open W input = Ok pdf -> Spec.form_fields pdf = Some fields ->
           ~ In key (map (Spec.field_name W) fields)) ->
        fill_pdf_form W input (MappingDict (<[key := value]> mapping)) output
        = fill_pdf_form W input (MappingDict mapping) output).
Proof.
  split.
  - intros pdf fields path fields' Hopen Hform. simpl. unfold fill_checked.
    destruct (negb (path_exists W input)).
    { simpl. intros [Hin|[]]. discriminate. }
    intros Hin. apply in_events_try in Hin as [Hin|(e & Hin)].
    2:{ simpl in Hin. destruct Hin as [Hin|[]]. discriminate. }
    rewrite (fill_body_walks _ _ _ _ pdf fields) in Hin by assumption.
    apply in_events_bind in Hin as [Hin|([] & _ & Hin)].
    { simpl in Hin. destruct Hin as [Hin|[]]. discriminate. }
    apply in_events_bind in Hin as [Hin|([[fields1 filled] total] & Hout & Hin)].
    { now apply not_saved_print in Hin; [|apply fill_fields_prints]. }
    apply save_filled_saved in Hin as [-> ->]. split; [reflexivity|].
    exact (fill_fields_frame _ _ _ _ _ _ _ _ Hout).
  - intros key value Hfresh. simpl. unfold fill_checked.
    now rewrite fill_body_insert.
Qed.

Lemma unmapped_untouched_witness :
  fill_pdf_form
    (Samples.world Samples.name_doc
       (Samples.form [Samples.text_field; Samples.check_field]))
    "form.pdf"
    (MappingDict (<["Ghost" := PyStr "x"]> (<["Agree" := PyBool true]> ∅)))
    "out.pdf"
  = fill_pdf_form
      (Samples.world Samples.name_doc
         (Samples.form [Samples.text_field; Samples.check_field]))
      "form.pdf" (MappingDict (<["Agree" := PyBool true]> ∅)) "out.pdf".
Proof.
  refine (proj2 (unmapped_untouched _ "form.pdf" _ "out.pdf") "Ghost" (PyStr "x") _).
  intros pdf fields [= <-] [= <-]. vm_compute.
  intros [H|[H|[]]]; discriminate.
Defined.

(** C9 fails as stated.  The mapping holds the key ["Ghost"], which names
    no field of the form.  The run succeeds and prints one line per field
    and the two closing lines; no printed line mentions the key: it is
    ignored without a warning. *)
Lemma unknown_key_not_warned :
  let W := Samples.world Samples.name_doc
             (Samples.form [Samples.text_field; Samples.check_field]) in
  let run := fill_pdf_form W "form.pdf" (MappingDict Samples.ghost_mapping)
                           "out.pdf" in
  Samples.ghost_mapping !! "Ghost" = Some (PyStr "x")
  /\ existsb (String.eqb "Ghost")
             (map (Spec.field_name W) [Samples.text_field; Samples.check_field])
     = false
  /\ outcome run = Ok true
  /\ printed_lines (events run)
     = ["Info: No mapping found for field 'Name'";
        "Filled button field 'Agree': True";
        "Success: Filled 1 out of 2 fields.";
        "Filled PDF saved to: out.pdf"]
  /\ existsb (Spec.mentions "Ghost") (events run) = false.
Proof. vm_compute. auto. Qed.

End FillerFacts.

(** ** Document handles *)

Module HandleFacts.
Import Py Extractor Filler.

Lemma handles_open_close lib path :
  open_handles [Opened lib path; Closed lib path] = [].
Proof. unfold open_handles. simpl. now rewrite decide_True. Qed.

(** Off the exception path, [get_contextual_text_for_field] leaves no
    handle open. *)
Lemma context_handle_closed W path page_index rect :
  open_handles (events (get_contextual_text_for_field W path page_index rect)) = []
  \/ exists e, outcome (contextual_text_body W path page_index rect) = Raise e.
Proof.
  unfold get_contextual_text_for_field.
  destruct (invalid_input page_index rect); [now left|].
  destruct (contextual_text_body W path page_index rect) as [[s|e] evs] eqn:Hbody;
    [left|right; now exists e].
  simpl. revert Hbody. unfold contextual_text_body, open_document, load_page, unpack4.
  destruct (fitz_open W path) as [doc|e]; [|discriminate].
  ExtractorFacts.run.
  destruct (Z.of_nat (length (doc_pages doc)) <=? page_index).
  { intros [= _ <-]. apply handles_open_close. }
  destruct (doc_pages doc !! Z.to_nat page_index) as [page|]; [|discriminate].
  destruct rect as [[|a [|b [|c [|d [|x coords]]]]]|]; try discriminate.
  simpl. destruct (get_text_words page) as [words|e]; [|discriminate].
  intros [= _ <-]. apply handles_open_close.
Qed.

Lemma print_quiet log : Forall is_print log -> Forall quiet log.
Proof. induction 1 as [|[] log He _ IH]; constructor; easy. Qed.

Lemma save_filled_log W input output fields filled total b evs :
  save_filled W input output fields filled total = (Ok b, evs) ->
  exists pre rest,
    Forall quiet pre /\ Forall quiet rest
    /\ evs = pre ++ Closed PikePDF input :: rest.
Proof.
  unfold save_filled. cbv zeta.
  destruct (negb (String.eqb (path_dirname W output) "")
            && negb (path_exists W (path_dirname W output)));
    [destruct (makedirs W (path_dirname W output)) as [[]|e]|];
    destruct (pikepdf_save W output) as [[]|e'];
    unfold print; ExtractorFacts.run; intros [= _ <-].
  - exists [MadeDirs (path_dirname W output); Saved output fields]. eexists.
    split; [|split; [|reflexivity]]; repeat constructor.
  - exists [Saved output fields]. eexists.
    split; [|split; [|reflexivity]]; repeat constructor.
Qed.

Lemma handles_closed_after lib path pre rest :
  Forall quiet pre -> Forall quiet rest ->
  open_handles (Opened lib path :: pre ++ Closed lib path :: rest) = [].
Proof.
  intros Hpre Hrest. unfold open_handles. simpl.
  rewrite foldl_app, (handles_quiet _ _ Hpre). simpl.
  rewrite decide_True by reflexivity. now apply handles_quiet.
Qed.

(** A run of the [try] block of [fill_pdf_form] that returns leaves no
    handle open. *)
Lemma fill_body_handles W input mapping output b evs :
  fill_body W input mapping output = (Ok b, evs) -> open_handles evs = [].
Proof.
  unfold fill_body.
  destruct (pikepdf_open W input) as [pdf|e]; [|discriminate].
  rewrite (bind_lift_ok _ _ pdf) by easy.
  destruct (Pike.assoc "/AcroForm" (Root pdf)) as [acro|].
  2:{ intros [= _ <-]. now apply (handles_closed_after _ _ [_] []); repeat constructor. }
  destruct (CatalogFacts.get_or_cases acro "/Fields" (PdfArray []))
    as [(fields_obj & ->)|(e & ->)];
    [rewrite bind_ret|ExtractorFacts.run; discriminate].
  destruct (Pike.iter fields_obj) as [fields|e]; [|discriminate].
  rewrite (bind_lift_ok _ _ fields) by easy.
  pose proof (FillerFacts.fill_fields_prints W mapping fields 0 0) as Hprints.
  destruct (fill_fields W mapping fields 0 0) as [[[[fields' filled] total]|e] evs1];
    [|discriminate].
  rewrite (bind_ok _ _ (fields', filled, total) evs1) by reflexivity.
  destruct (save_filled W input output fields' filled total) as [[b'|e] evs2] eqn:Hsave;
    [|discriminate].
  destruct (save_filled_log _ _ _ _ _ _ _ _ Hsave) as (pre & rest & Hpre & Hrest & ->).
  simpl. intros [= _ <-]. rewrite app_assoc.
  apply handles_closed_after; [|assumption].
  apply Forall_app. split; [now apply print_quiet|assumption].
Qed.

(** Off the exception path, [fill_pdf_form] leaves no handle open. *)
Lemma fill_handle_closed W input mapping output :
  open_handles (events (fill_pdf_form W input mapping output)) = []
  \/ exists d e,
       Spec.loaded_mapping W input mapping = Some d
       /\ outcome (fill_body W input d output) = Raise e.
Proof.
  assert (forall loaded,
            open_handles (events (fill_checked W input loaded output)) = []
            \/ exists d e,
                 loaded = JsonObject d /\ path_exists W input = true
                 /\ outcome (fill_body W input d output) = Raise e) as Hchecked.
  { intros [d|]; [|now left]. unfold fill_checked.
    destruct (path_exists W input); [|now left]. simpl negb. cbv iota.
    destruct (fill_body W input d output) as [[b|e] evs] eqn:Hbody.
    - left. simpl. now apply (fill_body_handles _ _ _ _ _ _ Hbody).
    - right. exists d, e. rewrite Hbody. repeat split. }
  unfold fill_pdf_form, Spec.loaded_mapping.
  destruct mapping as [d|path|].
  - destruct (Hchecked (JsonObject d)) as [Hc|(d' & e & [= <-] & Hin & Hr)];
      [now left|right]. exists d, e. now rewrite Hin.
  - destruct (path_exists W path); [|now left]. simpl negb. cbv iota.
    destruct (json_load W path) as [loaded|e]; [|now left].
    destruct (Hchecked loaded) as [Hc|(d' & e & -> & Hin & Hr)];
      [now left|right]. exists d', e. now rewrite Hin.
  - now left.
Qed.

(** [extract_form_fields] closes no pikepdf handle, on any path. *)
Lemma context_not_pike_close W path page_index rect :
  Forall not_pike_close
         (events (get_contextual_text_for_field W path page_index rect)).
Proof.
  unfold get_contextual_text_for_field, contextual_text_body, open_document,
    load_page, unpack4.
  destruct (invalid_input page_index rect); [constructor|].
  repeat (first [ apply events_bind_Forall; [|intros ?]
                | apply events_try_Forall; [|intros ?]
                | solve [repeat constructor] ]
          || match goal with
             | |- context [if ?c then _ else _] => destruct c
             | |- context [match ?x with _ => _ end] => destruct x
             end).
Qed.

Lemma field_record_not_pike_close W path field :
  Forall not_pike_close (events (field_record W path field)).
Proof.
  unfold field_record, Pike.get_or, Pike.float_list, get_field_options.
  repeat (first [ apply context_not_pike_close
                | apply events_mapM_Forall; intros ?
                | apply events_bind_Forall; [|intros ?]
                | solve [repeat constructor] ]
          || match goal with
             | |- context [match ?x with _ => _ end] => destruct x
             end).
Qed.

Lemma extract_never_closes W path :
  Forall not_pike_close (events (extract_form_fields W path))
  /\ forall pdf, pikepdf_open W path = Ok pdf ->
                 In (PikePDF, path)
                    (open_handles (events (extract_form_fields W path))).
Proof.
  assert (forall pdf,
            Forall not_pike_close
              (events match Pike.assoc "/AcroForm" (Root pdf) with
                      | None => mret []
                      | Some acro_form =>
                          Pike.get_or acro_form "/Fields" (PdfArray [])
                          ≫= fun fields_obj =>
                               lift (Pike.iter fields_obj)
                               ≫= fun fields => mapM (field_record W path) fields
                      end)) as Hrest.
  { intros pdf. destruct (Pike.assoc "/AcroForm" (Root pdf)); [|constructor].
    unfold Pike.get_or.
    repeat (first [ apply field_record_not_pike_close
                  | apply events_mapM_Forall; intros ?
                  | apply events_bind_Forall; [|intros ?]
                  | solve [repeat constructor] ]). }
  unfold extract_form_fields. split.
  - apply events_bind_Forall; [constructor|]. intros pdf.
    apply events_bind_Forall; [repeat constructor|]. intros _. apply Hrest.
  - intros pdf Hopen. rewrite (bind_lift_ok _ _ pdf) by easy.
    rewrite (events_bind_ok _ _ tt) by reflexivity. simpl events at 1.
    unfold open_handles. simpl. apply handles_kept; [now left|].
    intros Hin. specialize (Hrest pdf). rewrite Forall_forall in Hrest.
    exact (Hrest _ (proj2 (list_elem_of_In _ _) Hin)).
Qed.

(** C6, on concrete runs.  The handle opened by the operation is still
    open when the function returns: in [get_contextual_text_for_field]
    when [page.get_text] raises and the handler returns the error string;
    in [fill_pdf_form] when [pdf.save] raises and the handler returns
    [False]; in [extract_form_fields] on a document without a form, which
    returns the empty list (it has no call to [close] at all). *)
Theorem handle_left_open :
  get_contextual_text_for_field
    (Samples.world Samples.broken_doc Samples.plain_pdf) "form.pdf" 0
    (Some Samples.name_rect)
  = (Ok "Error during contextual text extraction: cannot read page content",
     [Opened PyMuPDF "form.pdf"])
  /\ open_handles [Opened PyMuPDF "form.pdf"] = [(PyMuPDF, "form.pdf")]
  /\ outcome (fill_pdf_form
                (Samples.read_only_world Samples.name_doc
                   (Samples.form [Samples.text_field]))
                "form.pdf" (MappingDict Samples.ghost_mapping) "out.pdf")
     = Ok false
  /\ open_handles
       (events (fill_pdf_form
                  (Samples.read_only_world Samples.name_doc
                     (Samples.form [Samples.text_field]))
                  "form.pdf" (MappingDict Samples.ghost_mapping) "out.pdf"))
     = [(PikePDF, "form.pdf")]
  /\ extract_form_fields (Samples.world Samples.name_doc Samples.plain_pdf)
                         "form.pdf"
     = (Ok [], [Opened PikePDF "form.pdf"])
  /\ open_handles [Opened PikePDF "form.pdf"] = [(PikePDF, "form.pdf")].
Proof. vm_compute. repeat split; reflexivity. Qed.

End HandleFacts.

(** ** Ranking and the cap of three *)

Module RankingFacts.
Import Py Extractor.

(** *** The order of binary64 values *)

Lemma SFcompare_antisym x y :
  SFcompare y x = option_map CompOpp (SFcompare x y).
Proof.
  destruct x as [sx|sx| |sx mx ex], y as [sy|sy| |sy my ey]; simpl;
    try destruct sx; try destruct sy; simpl; try reflexivity.
  all: change (PosDef.Pos.compare_cont Eq my mx) with (Pos.compare my mx);
    change (PosDef.Pos.compare_cont Eq mx my) with (Pos.compare mx my);
    rewrite (Z.compare_antisym ex ey), (Pos.compare_antisym mx my);
    destruct (ex ?= ey)%Z; simpl; try reflexivity;
    now destruct (mx ?= my)%positive.
Qed.

Lemma ltb_asym (a b : float) :
  PrimFloat.ltb a b = true -> PrimFloat.ltb b a = false.
Proof.
  rewrite !FloatAxioms.ltb_spec. unfold SFltb.
  rewrite (SFcompare_antisym (Prim2SF a) (Prim2SF b)).
  now destruct (SFcompare (Prim2SF a) (Prim2SF b)) as [[]|].
Qed.

Lemma eqb_sym (a b : float) : PrimFloat.eqb b a = PrimFloat.eqb a b.
Proof.
  rewrite !FloatAxioms.eqb_spec. unfold SFeqb.
  rewrite (SFcompare_antisym (Prim2SF a) (Prim2SF b)).
  now destruct (SFcompare (Prim2SF a) (Prim2SF b)) as [[]|].
Qed.

Lemma tuple_lt_asym (a b : float * float) :
  tuple_lt a b = true -> tuple_lt b a = false.
Proof.
  unfold tuple_lt. rewrite (eqb_sym (fst a) (fst b)), (eqb_sym (snd a) (snd b)).
  destruct (PrimFloat.eqb (fst a) (fst b)); simpl.
  - destruct (PrimFloat.eqb (snd a) (snd b)); simpl; [discriminate|apply ltb_asym].
  - apply ltb_asym.
Qed.

(** *** The stable sort *)

Section SortFacts.
Context {A : Type} (lt : A -> A -> bool).
Hypothesis lt_asym : forall a b, lt a b = true -> lt b a = false.

Lemma insert_sorted_HdRel a x l :
  Ranking.precedes lt a x -> HdRel (Ranking.precedes lt) a l -> HdRel (Ranking.precedes lt) a (insert_sorted lt x l).
Proof.
  unfold Ranking.precedes.
  intros Hax Hal. destruct l as [|y l]; simpl; [now constructor|].
  destruct (lt y x); constructor; [now inversion Hal|assumption].
Qed.

Lemma insert_sorted_Sorted x l :
  Sorted (Ranking.precedes lt) l -> Sorted (Ranking.precedes lt) (insert_sorted lt x l).
Proof.
  induction 1 as [|y l Hl IH Hy]; simpl.
  - repeat constructor.
  - destruct (lt y x) eqn:Hyx.
    + constructor; [assumption|].
      apply insert_sorted_HdRel; [|assumption]. now apply lt_asym.
    + constructor; [now constructor|]. now constructor.
Qed.

Lemma sort_Sorted l : Sorted (Ranking.precedes lt) (sort lt l).
Proof.
  unfold sort. induction l as [|x l IH]; simpl; [constructor|].
  now apply insert_sorted_Sorted.
Qed.

Lemma take_Sorted n l : Sorted (Ranking.precedes lt) l -> Sorted (Ranking.precedes lt) (take n l).
Proof.
  intros Hs. revert n.
  induction Hs as [|y l Hl IH Hy]; intros [|k]; simpl; try constructor.
  - apply IH.
  - destruct Hy as [|z l' Hz]; destruct k; simpl; now constructor.
Qed.

Lemma length_insert_sorted x l :
  length (insert_sorted lt x l) = S (length l).
Proof.
  induction l as [|y l IH]; simpl; [reflexivity|].
  destruct (lt y x); simpl; now rewrite ?IH.
Qed.

Lemma length_sort l : length (sort lt l) = length l.
Proof.
  unfold sort. induction l as [|x l IH]; simpl; [reflexivity|].
  now rewrite length_insert_sorted, IH.
Qed.

End SortFacts.

(** *** The order of numbers *)

Lemma SFcompare_number x y :
  x <> S754_nan -> y <> S754_nan -> exists c, SFcompare x y = Some c.
Proof. destruct x, y; simpl; try congruence; eauto. Qed.

Lemma SFcompare_trans x y z c1 c2 :
  SFcompare z y = Some c1 -> SFcompare y x = Some c2 ->
  exists c3, SFcompare z x = Some c3
             /\ (c1 = Eq -> c3 = c2) /\ (c2 = Eq -> c3 = c1)
             /\ (c1 = Lt -> c2 = Lt -> c3 = Lt)
             /\ (c1 = Gt -> c2 = Gt -> c3 = Gt).
Proof.
  destruct x as [sx|sx| |sx mx ex], y as [sy|sy| |sy my ey],
           z as [sz|sz| |sz mz ez]; simpl; try discriminate;
    try destruct sx; try destruct sy; try destruct sz; simpl;
    change (PosDef.Pos.compare_cont Eq) with Pos.compare;
    repeat match goal with
      | |- context [Z.compare ?a ?b] => destruct (Z.compare_spec a b)
      | |- context [Pos.compare ?a ?b] => destruct (Pos.compare_spec a b)
      end;
    simpl; intros [= <-] [= <-]; eexists; (split; [reflexivity|]);
    repeat split; intros; try congruence; try lia.
Qed.

Lemma number_spec x : Ranking.number x = true -> Prim2SF x <> S754_nan.
Proof.
  unfold Ranking.number. rewrite FloatAxioms.eqb_spec. intros Hx E.
  rewrite E in Hx. discriminate.
Qed.

Lemma ltb_number (a b : float) :
  PrimFloat.ltb a b = true -> Prim2SF a <> S754_nan.
Proof.
  rewrite FloatAxioms.ltb_spec. intros Hx E. rewrite E in Hx. discriminate.
Qed.

Lemma opp_number (a : float) :
  Prim2SF a <> S754_nan -> Prim2SF (- a)%float <> S754_nan.
Proof. rewrite opp_spec. destruct (Prim2SF a); simpl; congruence. Qed.

Lemma ltb_trans (x y z : float) :
  Prim2SF x <> S754_nan -> Prim2SF y <> S754_nan -> Prim2SF z <> S754_nan ->
  PrimFloat.ltb y x = false -> PrimFloat.ltb z y = false ->
  PrimFloat.ltb z x = false.
Proof.
  intros Hx Hy Hz. rewrite !FloatAxioms.ltb_spec. unfold SFltb.
  destruct (SFcompare_number _ _ Hz Hy) as [c1 H1].
  destruct (SFcompare_number _ _ Hy Hx) as [c2 H2].
  destruct (SFcompare_trans _ _ _ _ _ H1 H2) as (c3 & H3 & T1 & T2 & T3 & T4).
  rewrite H1, H2, H3.
  destruct c1, c2; try discriminate; intros _ _.
  - now rewrite (T1 eq_refl).
  - now rewrite (T1 eq_refl).
  - now rewrite (T2 eq_refl).
  - now rewrite (T4 eq_refl eq_refl).
Qed.

Lemma not_ltb_leb (a b : float) :
  Prim2SF a <> S754_nan -> Prim2SF b <> S754_nan ->
  PrimFloat.ltb b a = false -> PrimFloat.leb a b = true.
Proof.
  intros Ha Hb. rewrite FloatAxioms.ltb_spec, leb_spec. unfold SFltb, SFleb.
  rewrite (SFcompare_antisym (Prim2SF b) (Prim2SF a)).
  destruct (SFcompare_number _ _ Hb Ha) as [c ->]. now destruct c.
Qed.

Lemma tuple_lt_trans (a b c : float * float) :
  Prim2SF (fst a) <> S754_nan /\ Prim2SF (snd a) <> S754_nan ->
  Prim2SF (fst b) <> S754_nan /\ Prim2SF (snd b) <> S754_nan ->
  Prim2SF (fst c) <> S754_nan /\ Prim2SF (snd c) <> S754_nan ->
  tuple_lt b a = false -> tuple_lt c b = false -> tuple_lt c a = false.
Proof.
  intros [Ha1 Ha2] [Hb1 Hb2] [Hc1 Hc2]. unfold tuple_lt.
  rewrite !FloatAxioms.ltb_spec, !FloatAxioms.eqb_spec. unfold SFltb, SFeqb.
  destruct (SFcompare_number _ _ Hc1 Hb1) as [p1 Hp1].
  destruct (SFcompare_number _ _ Hb1 Ha1) as [p2 Hp2].
  destruct (SFcompare_trans _ _ _ _ _ Hp1 Hp2) as (p3 & Hp3 & P1 & P2 & P3 & P4).
  destruct (SFcompare_number _ _ Hc2 Hb2) as [q1 Hq1].
  destruct (SFcompare_number _ _ Hb2 Ha2) as [q2 Hq2].
  destruct (SFcompare_trans _ _ _ _ _ Hq1 Hq2) as (q3 & Hq3 & Q1 & Q2 & Q3 & Q4).
  rewrite Hp1, Hp2, Hp3, Hq1, Hq2, Hq3.
  destruct p1, p2; simpl; try discriminate;
    try rewrite (P1 eq_refl); try rewrite (P2 eq_refl);
    try rewrite (P4 eq_refl eq_refl); simpl; try reflexivity;
    destruct q1, q2; simpl; try discriminate;
    try rewrite (Q1 eq_refl); try rewrite (Q2 eq_refl);
    try rewrite (Q4 eq_refl eq_refl); simpl; reflexivity.
Qed.

Lemma SFcompare_opp x y : SFcompare (SFopp x) (SFopp y) = SFcompare y x.
Proof.
  destruct x as [sx|sx| |sx mx ex], y as [sy|sy| |sy my ey]; simpl;
    try destruct sx; try destruct sy; simpl; try reflexivity.
  all: change (PosDef.Pos.compare_cont Eq my mx) with (Pos.compare my mx);
    change (PosDef.Pos.compare_cont Eq mx my) with (Pos.compare mx my);
    rewrite (Z.compare_antisym ex ey), (Pos.compare_antisym mx my);
    destruct (ex ?= ey)%Z; simpl; try reflexivity;
    now destruct (mx ?= my)%positive.
Qed.

Lemma leb_opp (a b : float) : PrimFloat.leb (- a) (- b) = PrimFloat.leb b a.
Proof. rewrite !leb_spec, !opp_spec. unfold SFleb. now rewrite SFcompare_opp. Qed.

Lemma tuple_lt_fst (a b : float * float) :
  Prim2SF (fst a) <> S754_nan -> Prim2SF (fst b) <> S754_nan ->
  tuple_lt a b = false -> PrimFloat.leb (fst b) (fst a) = true.
Proof.
  intros Ha Hb. unfold tuple_lt.
  destruct (PrimFloat.eqb (fst a) (fst b)) eqn:E; simpl.
  - intros _. rewrite FloatAxioms.eqb_spec in E. rewrite leb_spec.
    unfold SFeqb, SFleb in *.
    rewrite (SFcompare_antisym (Prim2SF (fst a)) (Prim2SF (fst b))).
    destruct (SFcompare (Prim2SF (fst a)) (Prim2SF (fst b))) as [[]|];
      simpl; congruence.
  - now apply not_ltb_leb.
Qed.

(** *** The best come first *)

Section BestFirst.
Context {A : Type} (ok : A -> Prop) (lt : A -> A -> bool).
Hypothesis lt_asym : forall a b, lt a b = true -> lt b a = false.
Hypothesis lt_trans :
  forall a b c, ok a -> ok b -> ok c ->
                lt b a = false -> lt c b = false -> lt c a = false.

Lemma not_after_trans a b c :
  Ranking.not_after ok lt a b -> Ranking.not_after ok lt b c ->
  Ranking.not_after ok lt a c.
Proof.
  intros (Ha & Hb & Hab) (_ & Hc & Hbc). repeat split; try assumption.
  now apply (lt_trans a b c).
Qed.

Lemma Sorted_not_after l :
  List.Forall ok l -> Sorted (Ranking.precedes lt) l ->
  Sorted (Ranking.not_after ok lt) l.
Proof.
  intros Hok Hs. induction Hs as [|x l Hl IH Hx]; [constructor|].
  inversion Hok as [|? ? Hokx Hokl]; subst. constructor; [now apply IH|].
  destruct Hx as [|y l' Hxy]; constructor.
  inversion Hokl; subst. now repeat split.
Qed.

Lemma StronglySorted_app_inv (R : A -> A -> Prop) l1 l2 a b :
  StronglySorted R (l1 ++ l2) -> In a l1 -> In b l2 -> R a b.
Proof.
  induction l1 as [|x l1 IH]; simpl; [tauto|].
  intros Hs [->|Ha] Hb; apply StronglySorted_inv in Hs as [Hs Hx].
  - rewrite List.Forall_forall in Hx. apply Hx, in_or_app. now right.
  - now apply IH.
Qed.

Lemma best_first n l a b :
  List.Forall ok l -> In a (take n (sort lt l)) -> In b l ->
  In b (take n (sort lt l)) \/ lt b a = false.
Proof.
  intros Hok Ha Hb.
  assert (StronglySorted (Ranking.not_after ok lt) (sort lt l)) as Hs.
  { apply Sorted_StronglySorted; [exact not_after_trans|].
    apply Sorted_not_after; [|now apply sort_Sorted].
    rewrite List.Forall_forall in *. intros x Hx. exact (Hok x (proj1 (in_sort lt x l) Hx)). }
  apply (proj2 (in_sort lt b l)) in Hb. rewrite <- (take_drop n (sort lt l)) in Hb, Hs.
  apply in_app_or in Hb as [Hb|Hb]; [now left|right].
  now destruct (StronglySorted_app_inv _ _ _ _ _ Hs Ha Hb) as (_ & _ & Hlt).
Qed.

End BestFirst.

(** *** The three selections *)

Section Selections.
Variables (H f_x0 f_lly f_x1 f_ury : float) (words : list Word).

#[local] Abbreviation left_qualifying :=
  (Ranking.left_qualifying H f_x0 f_lly f_ury words).
#[local] Abbreviation above_qualifying :=
  (Ranking.above_qualifying H f_x0 f_lly f_x1 f_ury words).
#[local] Abbreviation closest_qualifying :=
  (Ranking.closest_qualifying H f_x0 f_lly f_x1 f_ury words).

(** X1.  In each segment the words stand in the order of the sort key:
    no word is immediately followed by a word whose key is strictly
    smaller.  The key is (-x1, y0) for Left (rightmost edge first),
    (-y1, x0) for Above (lowest bottom edge first) and the squared
    distance for Closest. *)
Theorem segments_ranked :
  Sorted (Ranking.precedes (fun a b => tuple_lt (left_key a) (left_key b)))
         (left_selected H f_x0 f_lly f_ury words)
  /\ Sorted (Ranking.precedes (fun a b => tuple_lt (above_key a) (above_key b)))
            (above_selected H f_x0 f_lly f_x1 f_ury words)
  /\ Sorted (Ranking.precedes
               (fun a b => PrimFloat.ltb (closest_distance a) (closest_distance b)))
            (closest_selected H f_x0 f_lly f_x1 f_ury words).
Proof.
  split; [|split]; apply take_Sorted, sort_Sorted; intros a b.
  - apply tuple_lt_asym.
  - apply tuple_lt_asym.
  - apply ltb_asym.
Qed.

(** X2.  Each segment holds exactly the smaller of 3 and the number of
    words that pass its test (for Above and Closest: among the words not
    claimed before); the three segments together never hold more than 9
    words. *)
Theorem segment_sizes :
  length (actual_left_text_list H f_x0 f_lly f_ury words)
  = Nat.min 3 (length left_qualifying)
  /\ length (actual_above_text_list H f_x0 f_lly f_x1 f_ury words)
     = Nat.min 3 (length above_qualifying)
  /\ length (actual_closest_text_list H f_x0 f_lly f_x1 f_ury words)
     = Nat.min 3 (length closest_qualifying)
  /\ (length (actual_left_text_list H f_x0 f_lly f_ury words)
      + length (actual_above_text_list H f_x0 f_lly f_x1 f_ury words)
      + length (actual_closest_text_list H f_x0 f_lly f_x1 f_ury words)
      <= 9)%nat.
Proof.
  unfold actual_left_text_list, actual_above_text_list, actual_closest_text_list,
    left_selected, above_selected, closest_selected,
    left_texts_candidates, above_texts_candidates, closest_texts_candidates.
  rewrite !length_map, !length_take, !length_sort, !length_map.
  unfold Ranking.left_qualifying, Ranking.above_qualifying,
    Ranking.closest_qualifying. lia.
Qed.

(** X3.  Every selected candidate comes from a word of the page that
    passes the heuristic's test and carries that word's text and
    identity; a candidate of Above or Closest comes from a word whose
    identity was not claimed before. *)
Theorem selections_sound :
  (forall c, In c (left_selected H f_x0 f_lly f_ury words) ->
     exists w, In w words /\ in_left_window H f_x0 f_lly f_ury w = true
               /\ left_text c = word_text w /\ left_id c = id_of w)
  /\ (forall c, In c (above_selected H f_x0 f_lly f_x1 f_ury words) ->
       exists w, In w words /\ in_above_window H f_x0 f_x1 f_ury w = true
                 /\ (id_of w ∉ claimed_after_left H f_x0 f_lly f_ury words)
                 /\ above_text c = word_text w /\ above_id c = id_of w)
  /\ (forall c, In c (closest_selected H f_x0 f_lly f_x1 f_ury words) ->
       exists w, In w words /\ in_closest_window H f_x0 f_lly f_x1 f_ury w = true
                 /\ (id_of w ∉ claimed_after_above H f_x0 f_lly f_x1 f_ury words)
                 /\ closest_text c = word_text w /\ closest_id c = id_of w).
Proof.
  split; [|split]; intros c Hc; apply in_take, in_sort in Hc;
    apply in_map_iff in Hc as (w & <- & Hw); apply filter_In in Hw as [Hw Hq];
    exists w.
  - now repeat split.
  - apply andb_prop in Hq as [Hu Hq]. apply negb_true_iff in Hu.
    apply bool_decide_eq_false in Hu. now repeat split.
  - apply andb_prop in Hq as [Hu Hq]. apply negb_true_iff in Hu.
    apply bool_decide_eq_false in Hu. now repeat split.
Qed.

(** X4.  When at most three words pass the left test, every one of them
    is reported in the Left segment and its identity is claimed; the
    same holds for Above among the words not claimed by Left. *)
Theorem few_candidates_all_selected :
  ((length left_qualifying <= 3)%nat ->
   forall w, In w words -> in_left_window H f_x0 f_lly f_ury w = true ->
     In (word_text w) (actual_left_text_list H f_x0 f_lly f_ury words)
     /\ id_of w ∈ claimed_after_left H f_x0 f_lly f_ury words)
  /\ ((length above_qualifying <= 3)%nat ->
      forall w, In w words -> in_above_window H f_x0 f_x1 f_ury w = true ->
        id_of w ∉ claimed_after_left H f_x0 f_lly f_ury words ->
        In (word_text w) (actual_above_text_list H f_x0 f_lly f_x1 f_ury words)
        /\ id_of w ∈ claimed_after_above H f_x0 f_lly f_x1 f_ury words).
Proof.
  split.
  - intros Hfew w Hw Hq.
    assert (In (mkLeft (word_text w) (id_of w) (w_x1 w) (w_y0 w))
               (left_selected H f_x0 f_lly f_ury words)) as Hsel.
    { unfold left_selected. rewrite take_ge.
      - apply in_sort, in_map_iff. exists w. split; [reflexivity|].
        now apply filter_In.
      - unfold left_texts_candidates. now rewrite length_sort, length_map. }
    split.
    + unfold actual_left_text_list. apply in_map_iff. eexists. split; [|exact Hsel].
      reflexivity.
    + apply ExtractorFacts.elem_of_claim. left. apply in_map_iff.
      eexists. split; [|exact Hsel]. reflexivity.
  - intros Hfew w Hw Hq Hu.
    assert (In (mkAbove (word_text w) (id_of w) (w_y1 w) (w_x0 w))
               (above_selected H f_x0 f_lly f_x1 f_ury words)) as Hsel.
    { unfold above_selected. rewrite take_ge.
      - apply in_sort, in_map_iff. exists w. split; [reflexivity|].
        apply filter_In. split; [assumption|]. apply andb_true_intro.
        split; [|assumption]. apply negb_true_iff.
        now apply bool_decide_eq_false.
      - unfold above_texts_candidates. now rewrite length_sort, length_map. }
    split.
    + unfold actual_above_text_list. apply in_map_iff. eexists. split; [|exact Hsel].
      reflexivity.
    + apply ExtractorFacts.elem_of_claim. left. apply in_map_iff.
      eexists. split; [|exact Hsel]. reflexivity.
Qed.

(** X16.  The Closest segment holds the nearest words: a word that
    passes the distance test and is not claimed by Left or Above is
    either reported in the Closest segment or at least as far from the
    field centre as every word reported there. *)
Theorem closest_are_nearest c w :
  In c (closest_selected H f_x0 f_lly f_x1 f_ury words) ->
  In w closest_qualifying ->
  In (mkClosest (word_text w) (id_of w) (distance_sq H f_x0 f_lly f_x1 f_ury w))
     (closest_selected H f_x0 f_lly f_x1 f_ury words)
  \/ PrimFloat.leb (closest_distance c) (distance_sq H f_x0 f_lly f_x1 f_ury w)
     = true.
Proof.
  intros Hc Hw.
  set (ok := fun k : ClosestCandidate => Prim2SF (closest_distance k) <> S754_nan).
  assert (List.Forall ok (closest_texts_candidates H f_x0 f_lly f_x1 f_ury words))
    as Hok.
  { apply List.Forall_forall. intros k Hk. apply in_map_iff in Hk as (v & <- & Hv).
    apply filter_In in Hv as [_ Hv]. apply andb_prop in Hv as [_ Hv].
    exact (ltb_number _ _ Hv). }
  assert (In (mkClosest (word_text w) (id_of w)
                        (distance_sq H f_x0 f_lly f_x1 f_ury w))
             (closest_texts_candidates H f_x0 f_lly f_x1 f_ury words)) as Hin.
  { apply in_map_iff. exists w. split; [reflexivity|exact Hw]. }
  destruct (best_first ok
              (fun a b => PrimFloat.ltb (closest_distance a) (closest_distance b))
              (fun a b => ltb_asym _ _)
              (fun a b k => ltb_trans (closest_distance a) (closest_distance b)
                                      (closest_distance k))
              3 _ c _ Hok Hc Hin) as [Hsel|Hlt]; [now left|right].
  rewrite List.Forall_forall in Hok.
  apply not_ltb_leb; [|exact (Hok _ Hin)|exact Hlt].
  apply Hok. apply in_take in Hc. exact (proj1 (in_sort _ _ _) Hc).
Qed.

(** X17.  When the coordinates read by the tie-breaks are numbers, the
    Left segment holds the rightmost words and the Above segment the
    lowest: a word that passes the left test is either reported in the
    Left segment or does not sort before any word reported there, and
    its right edge is not further right than theirs; likewise for Above,
    among the words not claimed by Left, with the bottom edge. *)
Theorem left_above_are_best :
  List.Forall (fun w => Ranking.number (w_x0 w) = true
                        /\ Ranking.number (w_y0 w) = true) words ->
  (forall c w,
     In c (left_selected H f_x0 f_lly f_ury words) -> In w left_qualifying ->
     In (mkLeft (word_text w) (id_of w) (w_x1 w) (w_y0 w))
        (left_selected H f_x0 f_lly f_ury words)
     \/ (tuple_lt (left_key (mkLeft (word_text w) (id_of w) (w_x1 w) (w_y0 w)))
                  (left_key c) = false
         /\ PrimFloat.leb (w_x1 w) (left_x1 c) = true))
  /\ (forall c w,
        In c (above_selected H f_x0 f_lly f_x1 f_ury words) ->
        In w above_qualifying ->
        In (mkAbove (word_text w) (id_of w) (w_y1 w) (w_x0 w))
           (above_selected H f_x0 f_lly f_x1 f_ury words)
        \/ (tuple_lt (above_key (mkAbove (word_text w) (id_of w) (w_y1 w) (w_x0 w)))
                     (above_key c) = false
            /\ PrimFloat.leb (w_y1 w) (above_y1 c) = true)).
Proof.
  intros Hnum. rewrite List.Forall_forall in Hnum. split.
  - intros c w Hc Hw.
    set (ok := fun k : LeftCandidate =>
                 Prim2SF (fst (left_key k)) <> S754_nan
                 /\ Prim2SF (snd (left_key k)) <> S754_nan).
    assert (List.Forall ok (left_texts_candidates H f_x0 f_lly f_ury words)) as Hok.
    { apply List.Forall_forall. intros k Hk.
      apply in_map_iff in Hk as (v & <- & Hv). apply filter_In in Hv as [Hin Hv].
      apply andb_prop in Hv as [Hv _]. apply andb_prop in Hv as [Hv _].
      split; simpl.
      - exact (opp_number _ (ltb_number _ _ Hv)).
      - apply number_spec. now destruct (Hnum _ Hin). }
    assert (In (mkLeft (word_text w) (id_of w) (w_x1 w) (w_y0 w))
               (left_texts_candidates H f_x0 f_lly f_ury words)) as Hin.
    { apply in_map_iff. exists w. split; [reflexivity|exact Hw]. }
    destruct (best_first ok (fun a b => tuple_lt (left_key a) (left_key b))
                (fun a b => tuple_lt_asym _ _)
                (fun a b k => tuple_lt_trans (left_key a) (left_key b) (left_key k))
                3 _ c _ Hok Hc Hin) as [Hsel|Hlt]; [now left|right].
    split; [exact Hlt|]. rewrite List.Forall_forall in Hok.
    apply in_take in Hc. apply (proj1 (in_sort _ _ _)) in Hc.
    apply tuple_lt_fst in Hlt; [|exact (proj1 (Hok _ Hin))|exact (proj1 (Hok _ Hc))].
    simpl in Hlt. now rewrite leb_opp in Hlt.
  - intros c w Hc Hw.
    set (ok := fun k : AboveCandidate =>
                 Prim2SF (fst (above_key k)) <> S754_nan
                 /\ Prim2SF (snd (above_key k)) <> S754_nan).
    assert (List.Forall ok (above_texts_candidates H f_x0 f_lly f_x1 f_ury words))
      as Hok.
    { apply List.Forall_forall. intros k Hk.
      apply in_map_iff in Hk as (v & <- & Hv). apply filter_In in Hv as [Hin Hv].
      apply andb_prop in Hv as [_ Hv]. apply andb_prop in Hv as [Hv _].
      apply andb_prop in Hv as [Hv _].
      split; simpl.
      - exact (opp_number _ (ltb_number _ _ Hv)).
      - apply number_spec. now destruct (Hnum _ Hin). }
    assert (In (mkAbove (word_text w) (id_of w) (w_y1 w) (w_x0 w))
               (above_texts_candidates H f_x0 f_lly f_x1 f_ury words)) as Hin.
    { apply in_map_iff. exists w. split; [reflexivity|exact Hw]. }
    destruct (best_first ok (fun a b => tuple_lt (above_key a) (above_key b))
                (fun a b => tuple_lt_asym _ _)
                (fun a b k => tuple_lt_trans (above_key a) (above_key b) (above_key k))
                3 _ c _ Hok Hc Hin) as [Hsel|Hlt]; [now left|right].
    split; [exact Hlt|]. rewrite List.Forall_forall in Hok.
    apply in_take in Hc. apply (proj1 (in_sort _ _ _)) in Hc.
    apply tuple_lt_fst in Hlt; [|exact (proj1 (Hok _ Hin))|exact (proj1 (Hok _ Hc))].
    simpl in Hlt. now rewrite leb_opp in Hlt.
Qed.

End Selections.

Lemma closest_are_nearest_witness :
  let w := mkWord 110 180 140 190 "five" 0 4 0 in
  let c := mkClosest "three" (0, 2, 0) 4285.25 in
  In (mkClosest (word_text w) (id_of w) (distance_sq 792 100 700 200 715 w))
     (closest_selected 792 100 700 200 715 Samples.stacked_words)
  \/ PrimFloat.leb (closest_distance c) (distance_sq 792 100 700 200 715 w)
     = true.
Proof.
  intros w c.
  apply (closest_are_nearest 792 100 700 200 715 Samples.stacked_words c w);
    vm_compute; tauto.
Defined.

Lemma left_above_are_best_witness :
  let w := mkWord 35 78 45 90 "a" 0 0 0 in
  let c := mkLeft "b" (0, 0, 1) 60 78 in
  In (mkLeft (word_text w) (id_of w) (w_x1 w) (w_y0 w))
     (left_selected 792 100 700 715 Samples.line_words)
  \/ (tuple_lt (left_key (mkLeft (word_text w) (id_of w) (w_x1 w) (w_y0 w)))
               (left_key c) = false
      /\ PrimFloat.leb (w_x1 w) (left_x1 c) = true).
Proof.
  intros w c.
  apply (left_above_are_best 792 100 700 200 715 Samples.line_words);
    [repeat constructor|vm_compute; tauto|vm_compute; tauto].
Defined.

End RankingFacts.

(** ** The option decoder *)

Module OptionFacts.
Import Py Extractor.

Lemma length_concat_le {A B} (f : A -> list B) (l : list A) :
  (forall x, (length (f x) <= 1)%nat) ->
  (length (concat (map f l)) <= length l)%nat.
Proof.
  intros Hf. induction l as [|x l IH]; simpl; [lia|].
  rewrite length_app. specialize (Hf x). lia.
Qed.

Lemma option_label_short W item : (length (option_label W item) <= 1)%nat.
Proof.
  destruct item as [| | | | | |[|first [|second [|third items]]]|]; simpl; try lia.
  destruct second, first; simpl; lia.
Qed.

(** X5.  Decoding what was encoded: a field whose [/Opt] array holds,
    for each choice, either the display string alone or the pair
    [[export, display]] decodes to the display strings, in order and
    without loss (duplicates included). *)
Theorem options_round_trip W entries (choices : list (option string * string)) :
  get_field_options W (Options.with_options entries (map Options.encode_option choices))
  = (Ok (map snd choices), []).
Proof.
  unfold get_field_options, Options.with_options, Pike.get.
  rewrite FillerFacts.assoc_set_entry_same,
    (bind_lift_ok _ _ (Some (PdfArray (map Options.encode_option choices)))) by easy.
  unfold mret, M_ret, ret. do 2 f_equal.
  induction choices as [|[[export|] display] choices IH]; simpl; now rewrite ?IH.
Qed.

(** X6.  On a field dictionary the decoder never raises and touches
    nothing outside; it yields at most one label per entry of [/Opt],
    and no label at all when [/Opt] is missing or is not an array. *)
Theorem options_total W entries :
  exists labels,
    get_field_options W (PdfDictionary entries) = (Ok labels, [])
    /\ match Pike.assoc "/Opt" entries with
       | Some (PdfArray items) => (length labels <= length items)%nat
       | _ => labels = []
       end.
Proof.
  unfold get_field_options, Pike.get.
  rewrite (bind_lift_ok _ _ (Pike.assoc "/Opt" entries)) by easy.
  destruct (Pike.assoc "/Opt" entries) as [[| | | | | |items|]|];
    try (now exists []).
  eexists. split; [reflexivity|].
  apply length_concat_le, option_label_short.
Qed.

End OptionFacts.

(** ** Writing values *)

Module WriterFacts.
Import Py Filler.

(** X7.  A mapped field that is not a button (text, choice or any other
    type): after the fill, [/V] reads back as the string of the mapped
    value, every other entry of the field is as before, and the field
    counts as filled. *)
Theorem value_round_trip W mapping entries value :
  mapping !! Spec.field_name W (PdfDictionary entries) = Some value ->
  Spec.field_type W (PdfDictionary entries) <> "/Btn" ->
  exists entries',
    outcome (fill_field W mapping (PdfDictionary entries))
    = Ok (PdfDictionary entries', true)
    /\ Pike.assoc "/V" entries' = Some (PdfString (py_str value))
    /\ forall key, key <> "/V" -> Pike.assoc key entries' = Pike.assoc key entries.
Proof.
  intros Hmap Htype.
  exists (Pike.set_entry "/V" (PdfString (py_str value)) entries).
  split; [|split].
  - rewrite (FillerFacts.fill_field_mapped _ _ _ value Hmap). unfold write_value.
    destruct (String.eqb_spec (Spec.field_type W (PdfDictionary entries)) "/Btn")
      as [Heq|_]; [contradiction|].
    destruct (String.eqb (Spec.field_type W (PdfDictionary entries)) "/Tx");
      [reflexivity|].
    destruct (String.eqb (Spec.field_type W (PdfDictionary entries)) "/Ch");
      reflexivity.
  - apply FillerFacts.assoc_set_entry_same.
  - intros key Hkey. now apply FillerFacts.assoc_set_entry_other.
Qed.

Lemma value_round_trip_witness :
  exists entries',
    outcome (fill_field (Samples.world Samples.name_doc Samples.plain_pdf)
                        (<["Name" := PyStr "Alice"]> ∅) Samples.text_field)
    = Ok (PdfDictionary entries', true)
    /\ Pike.assoc "/V" entries' = Some (PdfString "Alice")
    /\ forall key, key <> "/V" ->
         Pike.assoc key entries'
         = Pike.assoc key [("/T", PdfString "Name"); ("/FT", PdfName "/Tx");
                           ("/Rect", PdfArray [PdfInteger 100; PdfInteger 700;
                                               PdfInteger 200; PdfInteger 715])].
Proof.
  apply (value_round_trip (Samples.world Samples.name_doc Samples.plain_pdf)
           (<["Name" := PyStr "Alice"]> ∅) _ (PyStr "Alice")).
  - vm_compute. reflexivity.
  - discriminate.
Defined.

Lemma not_loaded W input mapping output :
  Spec.loaded_mapping W input mapping = None ->
  outcome (fill_pdf_form W input mapping output) = Ok false
  /\ Forall is_print (events (fill_pdf_form W input mapping output)).
Proof.
  unfold Spec.loaded_mapping, fill_pdf_form, fill_checked.
  destruct mapping as [d|path|].
  - destruct (path_exists W input); [discriminate|]. intros _. now repeat constructor.
  - destruct (path_exists W path); [|intros _; now repeat constructor].
    simpl negb. cbv iota.
    destruct (json_load W path) as [[d|]|e];
      [|intros _; now repeat constructor..].
    destruct (path_exists W input); [discriminate|]. intros _. now repeat constructor.
  - intros _. now repeat constructor.
Qed.

Lemma loaded W input mapping output d :
  Spec.loaded_mapping W input mapping = Some d ->
  fill_pdf_form W input mapping output
  = try_except (fill_body W input d output) Writer.report_failure.
Proof.
  unfold Spec.loaded_mapping, fill_pdf_form, fill_checked.
  destruct mapping as [d'|path|]; try discriminate.
  - destruct (path_exists W input); [|discriminate]. now intros [= ->].
  - destruct (path_exists W path); [|discriminate]. simpl negb. cbv iota.
    destruct (json_load W path) as [[d'|]|e]; try discriminate.
    destruct (path_exists W input); [|discriminate]. now intros [= ->].
Qed.

(** X8.  When no mapping dictionary reaches the [try] block (the mapping
    file is missing or unreadable, the mapping is not a dictionary, or
    the input PDF does not exist), [fill_pdf_form] returns [False] and
    does nothing but print: no document is opened, no directory is
    created and nothing is saved. *)
Theorem unusable_mapping_fails_fast W input mapping output :
  Spec.loaded_mapping W input mapping = None ->
  outcome (fill_pdf_form W input mapping output) = Ok false
  /\ Forall is_print (events (fill_pdf_form W input mapping output)).
Proof. apply not_loaded. Qed.

Lemma unusable_mapping_fails_fast_witness :
  outcome (fill_pdf_form (Samples.world Samples.name_doc Samples.plain_pdf)
                         "form.pdf" (MappingPath "mapping.json") "out.pdf")
  = Ok false
  /\ Forall is_print
       (events (fill_pdf_form (Samples.world Samples.name_doc Samples.plain_pdf)
                              "form.pdf" (MappingPath "mapping.json") "out.pdf")).
Proof.
  apply (unusable_mapping_fails_fast
           (Samples.world Samples.name_doc Samples.plain_pdf)).
  reflexivity.
Defined.

(** *** Success means saved *)

Lemma print_not_saved log : Forall is_print log -> Forall Writer.not_saved log.
Proof. induction 1 as [|[] log He _ IH]; constructor; easy. Qed.

Lemma not_saved_in log path fields :
  Forall Writer.not_saved log -> ~ In (Saved path fields) log.
Proof.
  intros Hall Hin. rewrite Forall_forall in Hall.
  exact (Hall _ (proj2 (list_elem_of_In _ _) Hin)).
Qed.

Lemma save_filled_cases W input output fields filled total r evs :
  save_filled W input output fields filled total = (r, evs) ->
  (r = Ok true /\ In (Saved output fields) evs)
  \/ ((exists e, r = Raise e) /\ Forall Writer.not_saved evs).
Proof.
  unfold save_filled. cbv zeta.
  destruct (negb (String.eqb (path_dirname W output) "")
            && negb (path_exists W (path_dirname W output)));
    [destruct (makedirs W (path_dirname W output)) as [[]|e]|];
    destruct (pikepdf_save W output) as [[]|e'];
    unfold print; ExtractorFacts.run; intros [= <- <-];
    try (left; split; [reflexivity|simpl; tauto]);
    right; (split; [eauto|repeat constructor]).
Qed.

Lemma fill_body_cases W input mapping output r evs :
  fill_body W input mapping output = (r, evs) ->
  (r = Ok true /\ exists fields, In (Saved output fields) evs)
  \/ (r <> Ok true /\ Forall Writer.not_saved evs).
Proof.
  unfold fill_body.
  destruct (pikepdf_open W input) as [pdf|e].
  2:{ intros [= <- <-]. right. split; [discriminate|constructor]. }
  rewrite (bind_lift_ok _ _ pdf) by easy.
  destruct (Pike.assoc "/AcroForm" (Root pdf)) as [acro|].
  2:{ intros [= <- <-]. right. split; [discriminate|repeat constructor]. }
  destruct (CatalogFacts.get_or_cases acro "/Fields" (PdfArray []))
    as [(fields_obj & ->)|(e & ->)].
  2:{ intros [= <- <-]. right. split; [discriminate|repeat constructor]. }
  rewrite bind_ret.
  destruct (Pike.iter fields_obj) as [fields|e].
  2:{ rewrite (bind_lift_raise _ _ e) by easy. intros [= <- <-]. right.
      split; [discriminate|repeat constructor]. }
  rewrite (bind_lift_ok _ _ fields) by easy.
  pose proof (FillerFacts.fill_fields_prints W mapping fields 0 0) as Hprints.
  apply print_not_saved in Hprints.
  destruct (fill_fields W mapping fields 0 0) as [[[[fields' filled] total]|e] evs1].
  2:{ intros [= <- <-]. right. split; [discriminate|]. now constructor. }
  rewrite (bind_ok _ _ (fields', filled, total) evs1) by reflexivity.
  destruct (save_filled W input output fields' filled total) as [r2 evs2] eqn:Hsave.
  simpl. intros [= <- <-].
  destruct (save_filled_cases _ _ _ _ _ _ _ _ Hsave) as [[-> Hin]|[(e & ->) Hno]].
  - left. split; [reflexivity|]. exists fields'. right. apply in_or_app. now right.
  - right. split; [discriminate|]. constructor; [exact I|].
    apply Forall_app. now split.
Qed.

Lemma fill_result W input mapping output :
  (exists b, outcome (fill_pdf_form W input mapping output) = Ok b)
  /\ (outcome (fill_pdf_form W input mapping output) = Ok true
      <-> exists fields,
            In (Saved output fields) (events (fill_pdf_form W input mapping output)))
  /\ (outcome (fill_pdf_form W input mapping output) = Ok false ->
      Forall Writer.not_saved (events (fill_pdf_form W input mapping output))).
Proof.
  destruct (Spec.loaded_mapping W input mapping) as [d|] eqn:Hload.
  - rewrite (loaded _ _ _ _ d Hload).
    destruct (fill_body W input d output) as [r evs] eqn:Hbody.
    destruct (fill_body_cases _ _ _ _ _ _ Hbody) as [[-> (fields & Hin)]|[Hr Hno]].
    + simpl. split; [now exists true|]. split; [|discriminate].
      split; [intros _; now exists fields|reflexivity].
    + destruct r as [b|e]; simpl.
      * split; [now exists b|]. split; [|now intros _].
        split; [congruence|]. intros (fields & Hin).
        now apply not_saved_in in Hin.
      * split; [now exists false|]. split.
        -- split; [discriminate|]. intros (fields & Hin).
           apply in_app_or in Hin as [Hin|[Hin|[]]]; [|discriminate].
           now apply not_saved_in in Hin.
        -- intros _. apply Forall_app. split; [assumption|repeat constructor].
  - destruct (not_loaded W input mapping output Hload) as [Hout Hprints].
    split; [now exists false|]. split.
    + rewrite Hout. split; [discriminate|]. intros (fields & Hin).
      now apply FillerFacts.not_saved_print in Hin.
    + intros _. now apply print_not_saved.
Qed.

(** X9.  [fill_pdf_form] never raises, and it returns [True] exactly when
    the filled document was saved to the output path; a run that returns
    [False] has saved nothing. *)
Theorem true_iff_saved W input mapping output :
  (exists b, outcome (fill_pdf_form W input mapping output) = Ok b)
  /\ (outcome (fill_pdf_form W input mapping output) = Ok true
      <-> exists fields,
            In (Saved output fields) (events (fill_pdf_form W input mapping output)))
  /\ (outcome (fill_pdf_form W input mapping output) = Ok false ->
      Forall Writer.not_saved (events (fill_pdf_form W input mapping output))).
Proof. apply fill_result. Qed.

(** *** The batch goes on *)

Lemma with_state_changes v entries :
  Writer.only_value_changed (PdfDictionary entries) (Spec.with_state v entries).
Proof.
  exists entries, (Pike.set_entry "/AS" v (Pike.set_entry "/V" v entries)).
  repeat split. intros key HV HAS.
  rewrite !FillerFacts.assoc_set_entry_other; congruence.
Qed.

Lemma set_value_changes v entries :
  Writer.only_value_changed (PdfDictionary entries)
                            (PdfDictionary (Pike.set_entry "/V" v entries)).
Proof.
  exists entries, (Pike.set_entry "/V" v entries). repeat split.
  intros key HV _. now rewrite FillerFacts.assoc_set_entry_other by congruence.
Qed.

Lemma check_box_changes entries field' evs :
  check_box (PdfDictionary entries) = (Ok field', evs) ->
  Writer.only_value_changed (PdfDictionary entries) field'.
Proof.
  destruct (FillerFacts.check_box_cases entries) as [(key & _ & ->)|(e & ->)];
    [|discriminate].
  intros [= <- _]. apply with_state_changes.
Qed.

Lemma write_value_changes entries field_name field_type value field' evs :
  write_value (PdfDictionary entries) field_name field_type value = (Ok field', evs) ->
  Writer.only_value_changed (PdfDictionary entries) field'.
Proof.
  unfold write_value.
  destruct (String.eqb field_type "/Tx");
    [intros [= <- _]; apply set_value_changes|].
  destruct (String.eqb field_type "/Ch");
    [intros [= <- _]; apply set_value_changes|].
  destruct (String.eqb field_type "/Btn");
    [|intros [= <- _]; apply set_value_changes].
  destruct value as [|[|]|z|text]; try discriminate;
    try (intros [= <- _]; first [apply set_value_changes|apply with_state_changes]).
  destruct (check_box (PdfDictionary entries)) as [[field1|e] evs1] eqn:Hbox;
    [|discriminate].
  rewrite (bind_ok _ _ field1 evs1) by reflexivity. simpl.
  intros [= <- _]. now apply (check_box_changes _ _ evs1).
Qed.

Lemma unchanged_changes entries :
  Writer.only_value_changed (PdfDictionary entries) (PdfDictionary entries).
Proof. exists entries, entries. now repeat split. Qed.

Lemma fill_field_dictionary W mapping entries :
  exists field' flag evs,
    fill_field W mapping (PdfDictionary entries) = (Ok (field', flag), evs)
    /\ Writer.only_value_changed (PdfDictionary entries) field'.
Proof.
  destruct (mapping !! Spec.field_name W (PdfDictionary entries)) as [value|] eqn:Hmap.
  - rewrite (FillerFacts.fill_field_mapped _ _ _ value Hmap).
    destruct (write_value (PdfDictionary entries)
                          (Spec.field_name W (PdfDictionary entries))
                          (Spec.field_type W (PdfDictionary entries)) value)
      as [[field1|e] evs1] eqn:Hwrite.
    + rewrite (bind_ok _ _ field1 evs1) by reflexivity. simpl.
      do 3 eexists. split; [reflexivity|]. now apply (write_value_changes _ _ _ _ _ evs1 Hwrite).
    + rewrite (bind_raise _ _ e evs1) by reflexivity. simpl.
      do 3 eexists. split; [reflexivity|]. apply unchanged_changes.
  - rewrite (FillerFacts.fill_field_unmapped _ _ _ Hmap).
    do 3 eexists. split; [reflexivity|]. apply unchanged_changes.
Qed.

(** X10.  On fields that are dictionaries the loop always runs to its
    end, whatever the mapping and whatever fails inside a single write:
    it returns one field per input field, each equal to the original
    except possibly for [/V] and [/AS]; [total_fields] grows by the
    number of fields and [filled_count] by at most as much. *)
Theorem batch_runs_to_the_end W mapping fields filled total :
  Forall Writer.is_dictionary fields ->
  exists fields' filled' total',
    outcome (fill_fields W mapping fields filled total)
    = Ok (fields', filled', total')
    /\ Forall2 Writer.only_value_changed fields fields'
    /\ total' = total + Z.of_nat (length fields)
    /\ filled <= filled' <= filled + Z.of_nat (length fields).
Proof.
  intros Hdict. revert filled total.
  induction Hdict as [|field rest (entries & ->) _ IH]; intros filled total.
  - exists [], filled, total. simpl. repeat split; try lia. constructor.
  - destruct (fill_field_dictionary W mapping entries)
      as (field' & flag & evs & Hfield & Hchanged).
    destruct (IH (if flag then filled + 1 else filled) (total + 1))
      as (rest' & filled' & total' & Hrest & Hall & Htotal & Hfilled).
    exists (field' :: rest'), filled', total'. split; [|split; [|split]].
    + simpl fill_fields. rewrite (outcome_bind_ok _ _ (field', flag))
        by now rewrite Hfield.
      now rewrite (outcome_bind_ok _ _ (rest', filled', total')).
    + now constructor.
    + simpl length. lia.
    + simpl length. destruct flag; lia.
Qed.

Lemma batch_runs_to_the_end_witness :
  exists fields' filled' total',
    outcome (fill_fields (Samples.world Samples.name_doc Samples.plain_pdf)
                         Samples.ghost_mapping
                         [Samples.text_field; Samples.check_field] 0 0)
    = Ok (fields', filled', total')
    /\ Forall2 Writer.only_value_changed
               [Samples.text_field; Samples.check_field] fields'
    /\ total' = 0 + Z.of_nat 2
    /\ 0 <= filled' <= 0 + Z.of_nat 2.
Proof.
  apply (batch_runs_to_the_end
           (Samples.world Samples.name_doc Samples.plain_pdf)
           Samples.ghost_mapping [Samples.text_field; Samples.check_field] 0 0).
  repeat constructor; eexists; reflexivity.
Defined.

End WriterFacts.

(** ** The workflow *)

Module WorkflowFacts.
Import Py.

(** X11.  [auto_fill_pdf_workflow] never raises.  It returns the output
    path, built from the output directory and the file name (the given
    one, or the input's stem followed by [_filled.pdf] when none or an
    empty one is given), exactly when the filled document was saved at
    that path, and the empty string when nothing was saved. *)
Theorem workflow_returns_saved_path (path_stem : string -> string)
    (path_join : string -> string -> string)
    W input mapping_path output_dir output_filename :
  let output :=
    path_join output_dir
              (Workflow.resolve_filename path_stem input output_filename) in
  let run :=
    Workflow.auto_fill_pdf_workflow path_stem path_join W input mapping_path
                                    output_dir output_filename in
  ((exists fields, In (Saved output fields) (events run)) /\ outcome run = Ok output)
  \/ (Forall Writer.not_saved (events run) /\ outcome run = Ok "").
Proof.
  intros output run. unfold run, Workflow.auto_fill_pdf_workflow. cbv zeta.
  fold output.
  destruct (WriterFacts.fill_result W input (Filler.MappingPath mapping_path) output)
    as ((b & Hb) & Htrue & Hfalse).
  destruct (Filler.fill_pdf_form W input (Filler.MappingPath mapping_path) output)
    as [r evs] eqn:Hrun.
  simpl in Hb. subst r. unfold Filler.print. ExtractorFacts.run.
  destruct b; simpl.
  - left. split; [|reflexivity]. destruct (proj1 Htrue eq_refl) as (fields & Hin).
    exists fields. simpl in Hin. do 4 right. apply in_or_app. now left.
  - right. split; [|reflexivity]. specialize (Hfalse eq_refl). simpl in Hfalse.
    repeat (constructor; [exact I|]). apply Forall_app. split; [assumption|].
    repeat constructor.
Qed.

End WorkflowFacts.

(** ** The full text of a document *)

Module FullTextFacts.
Import Py FullText.

Lemma collect_pages (pages : list (result string)) :
  (exists texts, pages = map Ok texts
                 /\ mapM (fun page_text => lift page_text) pages = (Ok texts, []))
  \/ (exists e, mapM (fun page_text => lift page_text) pages = (Raise e, [])).
Proof.
  induction pages as [|[text|e] pages IH].
  - left. now exists [].
  - rewrite mapM_cons, (bind_lift_ok _ _ text) by easy.
    destruct IH as [(texts & -> & ->)|(e & ->)].
    + left. exists (text :: texts). split; reflexivity.
    + right. now exists e.
  - right. exists e. now rewrite mapM_cons, (bind_lift_raise _ _ e).
Qed.

Lemma collect_ok (texts : list string) :
  mapM (fun page_text => lift page_text) (map Ok texts) = (Ok texts, []).
Proof.
  induction texts as [|text texts IH]; [reflexivity|].
  rewrite map_cons, mapM_cons, (bind_lift_ok _ _ text) by easy.
  now rewrite IH.
Qed.

Lemma report_empty_blank path doc r evs :
  report_empty path doc = (r, evs) -> r = Ok "" \/ exists e, r = Raise e.
Proof.
  unfold report_empty.
  destruct (len_after_close doc) as [n|e].
  - rewrite (bind_lift_ok _ _ n) by easy.
    destruct (0 <? n); [|destruct (n =? 0)]; intros [= <- _]; now left.
  - rewrite (bind_lift_raise _ _ e) by easy. intros [= <- _]. right. now exists e.
Qed.

(** X12.  [_get_full_pdf_text_for_llm] never raises.  For a PDF with at
    least one page whose pages all yield their text, it returns the page
    texts in page order joined by the page-break line and closes the
    document.  In every other case (the file does not open, is not a
    PDF, has no page, or a page fails) it returns the empty string: a
    non-empty result is always the joined text of all pages. *)
Theorem full_text_result (fitz_open_text : string -> result TextDocument) path :
  (exists s, outcome (_get_full_pdf_text_for_llm fitz_open_text path) = Ok s)
  /\ (forall doc text texts,
        fitz_open_text path = Ok doc -> is_pdf doc = true ->
        page_texts doc = map Ok (text :: texts) ->
        _get_full_pdf_text_for_llm fitz_open_text path
        = (Ok (join PAGE_BREAK (text :: texts)),
           [Opened PyMuPDF path; Closed PyMuPDF path]))
  /\ (forall s,
        outcome (_get_full_pdf_text_for_llm fitz_open_text path) = Ok s ->
        s <> "" ->
        exists doc texts,
          fitz_open_text path = Ok doc /\ is_pdf doc = true
          /\ page_texts doc = map Ok texts /\ s = join PAGE_BREAK texts).
Proof.
  unfold _get_full_pdf_text_for_llm, full_text_body. split; [|split].
  - match goal with |- context [try_except ?b ?h] => destruct b as [[s|e] evs] end;
      unfold Filler.print, try_except; ExtractorFacts.run; eauto.
  - intros doc text texts Hopen Hpdf Hpages.
    rewrite (bind_lift_ok _ _ doc) by easy.
    rewrite (bind_ok _ _ tt [Opened PyMuPDF path]) by reflexivity.
    rewrite Hpdf, Hpages. simpl negb. cbv iota.
    rewrite (bind_ok _ _ (text :: texts) []) by apply collect_ok.
    reflexivity.
  - intros s. destruct (fitz_open_text path) as [doc|e] eqn:Hopen.
    2:{ rewrite (bind_lift_raise _ _ e) by easy. unfold Filler.print.
        ExtractorFacts.run. intros [= <-]. congruence. }
    rewrite (bind_lift_ok _ _ doc) by easy.
    destruct (is_pdf doc) eqn:Hpdf.
    2:{ unfold Filler.print. ExtractorFacts.run. intros [= <-]. congruence. }
    simpl negb. cbv iota.
    destruct (collect_pages (page_texts doc)) as [(texts & Heq & Hrun)|(e & Hrun)].
    + rewrite (bind_ok _ _ tt [Opened PyMuPDF path]) by reflexivity.
      rewrite (bind_ok _ _ texts []) by exact Hrun.
      rewrite (bind_ok _ _ tt [Closed PyMuPDF path]) by reflexivity.
      destruct texts as [|text texts].
      * destruct (report_empty path doc) as [r evs] eqn:Hrep.
        destruct (report_empty_blank _ _ _ _ Hrep) as [->|(e & ->)];
          unfold Filler.print; ExtractorFacts.run; intros [= <-]; congruence.
      * simpl. intros [= <-] _. exists doc, (text :: texts). now repeat split.
    + rewrite (bind_ok _ _ tt [Opened PyMuPDF path]) by reflexivity.
      rewrite (bind_raise _ _ e []) by exact Hrun.
      unfold Filler.print. ExtractorFacts.run. intros [= <-]. congruence.
Qed.

End FullTextFacts.

(** ** The shape of a context string *)

Module ResultFacts.
Import Py Extractor.

Lemma body_forms W path page_index rect s evs :
  contextual_text_body W path page_index rect = (Ok s, evs) ->
  s = out_of_bounds page_index
  \/ exists closest left above,
       s = assemble (contextual_texts_output closest left above).
Proof.
  unfold contextual_text_body, open_document, load_page, unpack4.
  destruct (fitz_open W path) as [doc|e]; [|discriminate].
  ExtractorFacts.run.
  destruct (Z.of_nat (length (doc_pages doc)) <=? page_index).
  { intros [= <- _]. now left. }
  destruct (doc_pages doc !! Z.to_nat page_index) as [page|]; [|discriminate].
  destruct rect as [[|a [|b [|c [|d [|x coords]]]]]|]; try discriminate.
  simpl. destruct (get_text_words page) as [words|e]; [|discriminate].
  intros [= <- _]. right. eauto.
Qed.

Lemma prefix_empty s : String.prefix "" s = true.
Proof. now destruct s. Qed.

Lemma assemble_forms closest left above :
  let s := assemble (contextual_texts_output closest left above) in
  s = NO_CONTEXT
  \/ String.prefix "Closest: " s = true
  \/ String.prefix "Left: " s = true
  \/ String.prefix "Above: " s = true.
Proof.
  destruct closest as [|c closest]; [destruct left as [|l left];
    [destruct above as [|a above]|]|].
  - now left.
  - right; right; right. simpl. apply prefix_empty.
  - right; right; left. destruct above; simpl; apply prefix_empty.
  - right; left. destruct left, above; simpl; apply prefix_empty.
Qed.

Lemma prefix_nonempty p s :
  p <> "" -> String.prefix p s = true -> s <> "".
Proof. destruct p; [congruence|]. now destruct s. Qed.

Lemma result_forms W path page_index rect :
  exists s,
    outcome (get_contextual_text_for_field W path page_index rect) = Ok s
    /\ s <> ""
    /\ (s = INVALID_INPUT
        \/ s = out_of_bounds page_index
        \/ String.prefix ERROR_PREFIX s = true
        \/ s = NO_CONTEXT
        \/ String.prefix "Closest: " s = true
        \/ String.prefix "Left: " s = true
        \/ String.prefix "Above: " s = true).
Proof.
  unfold get_contextual_text_for_field.
  destruct (invalid_input page_index rect).
  { exists INVALID_INPUT. split; [reflexivity|]. split; [discriminate|now left]. }
  destruct (contextual_text_body W path page_index rect) as [[s|e] evs] eqn:Hbody.
  - exists s. split; [reflexivity|].
    destruct (body_forms _ _ _ _ _ _ Hbody) as [->|(closest & left & above & ->)].
    + split; [discriminate|]. right; now left.
    + destruct (assemble_forms closest left above) as [Hs|[Hs|[Hs|Hs]]].
      * rewrite Hs. split; [discriminate|]. do 3 right. now left.
      * split; [now apply (prefix_nonempty "Closest: ")|]. do 4 right. now left.
      * split; [now apply (prefix_nonempty "Left: ")|]. do 5 right. now left.
      * split; [now apply (prefix_nonempty "Above: ")|]. do 6 right. assumption.
  - exists (ERROR_PREFIX +:+ exn_msg e). split; [reflexivity|].
    split; [discriminate|]. right; right; left. simpl. apply prefix_empty.
Qed.

(** X13.  The string returned by [get_contextual_text_for_field] is never
    empty and always has one of seven forms: the invalid-input sentinel,
    the out-of-bounds message for the page index, a string that starts
    with the error prefix, the no-context sentinel, or a string that
    starts with ["Closest: "], ["Left: "] or ["Above: "]. *)
Theorem context_result_forms W path page_index rect :
  exists s,
    outcome (get_contextual_text_for_field W path page_index rect) = Ok s
    /\ s <> ""
    /\ (s = INVALID_INPUT
        \/ s = out_of_bounds page_index
        \/ String.prefix ERROR_PREFIX s = true
        \/ s = NO_CONTEXT
        \/ String.prefix "Closest: " s = true
        \/ String.prefix "Left: " s = true
        \/ String.prefix "Above: " s = true).
Proof. apply result_forms. Qed.

End ResultFacts.

(** ** The Gemini mapper *)

Module GeminiFacts.
Import Py Extractor.




(** *** The JSON text inside the response *)

Lemma find_absent c s : Gemini.absent c s = true -> Gemini.find c s = -1.
Proof.
  induction s as [|a s IH]; simpl; [reflexivity|].
  intros Habs. apply andb_prop in Habs as [Ha Hs]. apply negb_true_iff in Ha.
  now rewrite Ha, (IH Hs).
Qed.

Lemma rfind_absent c s : Gemini.absent c s = true -> Gemini.rfind c s = -1.
Proof.
  induction s as [|a s IH]; simpl; [reflexivity|].
  intros Habs. apply andb_prop in Habs as [Ha Hs]. apply negb_true_iff in Ha.
  now rewrite (IH Hs), Ha.
Qed.

Lemma find_first c pre rest :
  Gemini.absent c pre = true ->
  Gemini.find c (pre +:+ String c rest) = Z.of_nat (String.length pre).
Proof.
  induction pre as [|a pre IH]; simpl.
  - now rewrite Ascii.eqb_refl.
  - intros Habs. apply andb_prop in Habs as [Ha Hs]. apply negb_true_iff in Ha.
    rewrite Ha, (IH Hs).
    destruct (Z.eqb_spec (Z.of_nat (String.length pre)) (-1)); lia.
Qed.

Lemma rfind_last c s post :
  Gemini.absent c post = true ->
  Gemini.rfind c (s +:+ String c post) = Z.of_nat (String.length s).
Proof.
  intros Habs. induction s as [|a s IH]; simpl.
  - now rewrite (rfind_absent _ _ Habs), Ascii.eqb_refl.
  - rewrite IH. destruct (Z.eqb_spec (Z.of_nat (String.length s)) (-1)); lia.
Qed.

Lemma substring_skip pre n m s :
  String.substring (String.length pre + n) m (pre +:+ s) = String.substring n m s.
Proof. induction pre as [|a pre IH]; simpl; [reflexivity|apply IH]. Qed.

Lemma substring_head mid post :
  String.substring 0 (String.length mid) (mid +:+ post) = mid.
Proof.
  induction mid as [|a mid IH]; simpl; [now destruct post|]. now rewrite IH.
Qed.

Lemma length_append (s t : string) :
  String.length (s +:+ t) = (String.length s + String.length t)%nat.
Proof. induction s as [|a s IH]; simpl; [reflexivity|now rewrite IH]. Qed.

Lemma append_assoc (s t u : string) : (s +:+ t) +:+ u = s +:+ t +:+ u.
Proof.
  induction s as [|a s IH]; [reflexivity|].
  change (String a ((s +:+ t) +:+ u) = String a (s +:+ t +:+ u)).
  now f_equal.
Qed.

(** X15.  When the response holds a brace-delimited text with anything
    around it (no opening brace before it, no closing brace after it),
    the text handed to [json.loads] is exactly that brace-delimited
    text: what precedes the first opening brace and what follows the
    last closing brace is dropped. *)
Theorem json_candidate_strips (pre body post : string) :
  Gemini.absent "{" pre = true ->
  Gemini.absent "}" post = true ->
  Gemini.json_candidate (pre +:+ "{" +:+ body +:+ "}" +:+ post)
  = "{" +:+ body +:+ "}".
Proof.
  intros Hpre Hpost. unfold Gemini.json_candidate. cbv zeta.
  change (pre +:+ "{" +:+ body +:+ "}" +:+ post)
    with (pre +:+ String "{" (body +:+ String "}" post)).
  rewrite (find_first _ _ _ Hpre).
  replace (pre +:+ String "{" (body +:+ String "}" post))
    with ((pre +:+ String "{" body) +:+ String "}" post)
    by (rewrite append_assoc; reflexivity).
  rewrite (rfind_last _ _ _ Hpost), length_append. simpl String.length.
  destruct (Z.eqb_spec (Z.of_nat (String.length pre)) (-1)); [lia|].
  destruct (Z.eqb_spec (Z.of_nat (String.length pre + S (String.length body)) + 1) 0);
    [lia|].
  simpl negb. cbv iota. unfold Gemini.slice.
  rewrite Nat2Z.id.
  replace (Z.to_nat (Z.of_nat (String.length pre + S (String.length body)) + 1
                     - Z.of_nat (String.length pre)))
    with (String.length ("{" +:+ body +:+ "}")).
  2:{ rewrite !length_append. simpl. lia. }
  rewrite append_assoc.
  replace (String.length pre) with (String.length pre + 0)%nat at 1 by lia.
  rewrite substring_skip.
  simpl andb. cbv iota.
  replace (String "{" body +:+ String "}" post)
    with (("{" +:+ body +:+ "}") +:+ post).
  2:{ change (String "{" ((body +:+ "}") +:+ post)
              = String "{" (body +:+ String "}" post)).
      f_equal. now rewrite append_assoc. }
  apply substring_head.
Qed.

Lemma json_candidate_strips_witness :
  Gemini.json_candidate "Here you go: {}. Done"
  = "{}".
Proof.
  apply (json_candidate_strips "Here you go: " "" ". Done"); reflexivity.
Defined.

End GeminiFacts.
